(** * creativity_project_server: the audio relay of [app.js]

    A shallow embedding of the two Express route handlers of [app.js]
    ([POST /api/record_audio] and [POST /api/synthesize]) and of the three
    adapters they call ([speechToText], [translateText], [synthesizer]).

    JavaScript values are an inductive type, objects are finite maps from
    property names to values, the file store is a finite map from paths to
    byte contents, and the handlers run in a small state-and-exception monad
    over the file store and a chronological log of external effects.  The
    three cloud clients, the clock and the faults of the operating system
    are fields of a [host] record: the handlers are functions of the host,
    of the request and of the world they start in. *)

From Stdlib Require Import ZArith Ascii DecimalString DecimalZ DecimalPos DecimalFacts.
From Stdlib Require String.
From Stdlib.Strings Require Byte.
From stdpp Require Import base option list strings gmap fin_maps.

#[local] Set Warnings "-register-all".
#[local] Open Scope Z_scope.

(** ** JavaScript values *)

(** Where an exception was raised.  The tag is a ghost of the model: it
    records the call site of the [throw], which the program never inspects. *)
Inductive origin : Type :=
| PathJoin          (* path.join rejecting a segment that is not a string *)
| FsWriteFile       (* fs.writeFileSync *)
| FsUnlink          (* fs.unlinkSync *)
| SpeechRecognize   (* client.recognize rejected *)
| TranscriptAccess  (* result.alternatives[0].transcript on a missing alternative *)
| TranslateCall     (* translateClient.translate rejected *)
| TtsSynthesize.    (* ttsClient.synthesizeSpeech rejected *)

Record js_error : Type := JsError {
  err_origin : origin;
  err_code : string
}.

(** Numbers are the integer-valued ones: the only number the program
    computes with is the millisecond reading of [Date.now()]. *)
Inductive value : Type :=
| VUndefined
| VNull
| VBool (b : bool)
| VNumber (n : Z)
| VString (s : string)
| VBuffer (bytes : list Byte.byte)
| VArray (items : list value)
| VObject (fields : gmap string value)
| VError (e : js_error).

(** [!v] is [negb (truthy v)]. *)
Definition truthy (v : value) : bool :=
  match v with
  | VUndefined | VNull => false
  | VBool b => b
  | VNumber n => negb (n =? 0)
  | VString s => negb (String.eqb s "")
  | VBuffer _ | VArray _ | VObject _ | VError _ => true
  end.

(** [o.k]: a property that is not there reads as [undefined]. *)
Definition get_prop (o : gmap string value) (k : string) : value :=
  match o !! k with
  | Some v => v
  | None => VUndefined
  end.

(** An object literal [{ k1: v1, ..., kn: vn }]: the properties are
    defined from left to right, a repeated key keeps the last value. *)
Definition object_literal (props : list (string * value)) : value :=
  VObject (foldl (fun o kv => <[kv.1 := kv.2]> o) ∅ props).

(** [`${n}`] for an integer-valued number below 1e21 in magnitude. *)
Definition number_to_string (n : Z) : string :=
  NilZero.string_of_int (Z.to_int n).

(** [Array.prototype.join] on an array of strings: the accumulator starts
    empty, the separator is appended before every element but the first. *)
Fixpoint array_join_from (sep : string) (R : string) (first : bool) (l : list string) : string :=
  match l with
  | [] => R
  | x :: rest =>
      array_join_from sep ((if first then R else R +:+ sep) +:+ x) false rest
  end.

Definition array_join (sep : string) (l : list string) : string :=
  array_join_from sep "" true l.

(** ** [Buffer.prototype.toString('base64')] *)

Definition base64_alphabet : string :=
  "ABCDEFGHIJKLMNOPQRSTUVWXYZabcdefghijklmnopqrstuvwxyz0123456789+/".

Definition base64_digit (n : N) : ascii :=
  default "="%char (String.get (N.to_nat n) base64_alphabet).

Fixpoint base64 (bytes : list Byte.byte) : string :=
  match bytes with
  | [] => ""
  | [a] =>
      let x := Byte.to_N a in
      String (base64_digit (x / 4))
        (String (base64_digit ((x mod 4) * 16)) "==")
  | [a; b] =>
      let x := Byte.to_N a in
      let y := Byte.to_N b in
      String (base64_digit (x / 4))
        (String (base64_digit ((x mod 4) * 16 + y / 16))
           (String (base64_digit ((y mod 16) * 4)) "="))
  | a :: b :: c :: rest =>
      let x := Byte.to_N a in
      let y := Byte.to_N b in
      let z := Byte.to_N c in
      String (base64_digit (x / 4))
        (String (base64_digit ((x mod 4) * 16 + y / 16))
           (String (base64_digit ((y mod 16) * 4 + z / 64))
              (String (base64_digit (z mod 64)) (base64 rest))))
  end%N.

(** ** [path.join] (POSIX) *)

(** The segments of a path between its slashes. *)
Fixpoint split_slash (s : string) : list string :=
  match s with
  | EmptyString => [""]
  | String c rest =>
      if Ascii.eqb c "/" then "" :: split_slash rest
      else match split_slash rest with
           | [] => [String c ""]
           | seg :: segs => String c seg :: segs
           end
  end.

(** One step of [normalizeString]: [stack] holds the segments kept so far,
    the last one first. *)
Definition normalize_step (allowAboveRoot : bool) (stack : list string) (seg : string)
  : list string :=
  if String.eqb seg "" || String.eqb seg "." then stack
  else if String.eqb seg ".." then
    match stack with
    | top :: below =>
        if String.eqb top ".." then
          (if allowAboveRoot then ".." :: stack else stack)
        else below
    | [] => if allowAboveRoot then [".."] else []
    end
  else seg :: stack.

Definition normalizeString (allowAboveRoot : bool) (path : string) : string :=
  String.concat "/" (rev (foldl (normalize_step allowAboveRoot) [] (split_slash path))).

Definition starts_with_slash (s : string) : bool :=
  match s with
  | String c _ => Ascii.eqb c "/"
  | EmptyString => false
  end.

Fixpoint ends_with_slash (s : string) : bool :=
  match s with
  | EmptyString => false
  | String c EmptyString => Ascii.eqb c "/"
  | String _ rest => ends_with_slash rest
  end.

Definition posix_normalize (path : string) : string :=
  if String.eqb path "" then "."
  else
    let isAbsolute := starts_with_slash path in
    let trailingSeparator := ends_with_slash path in
    let p := normalizeString (negb isAbsolute) path in
    if String.eqb p "" then
      (if isAbsolute then "/" else if trailingSeparator then "./" else ".")
    else
      let p := if trailingSeparator then p +:+ "/" else p in
      if isAbsolute then "/" +:+ p else p.

(** [path.join] on arguments already known to be strings. *)
Definition posix_join (args : list string) : string :=
  match filter (fun a => a ≠ "") args with
  | [] => "."
  | nonempty => posix_normalize (String.concat "/" nonempty)
  end.

(** [validateString] on every argument, in order. *)
Fixpoint validate_strings (args : list value) : option (list string) :=
  match args with
  | [] => Some []
  | VString s :: rest => cons s <$> validate_strings rest
  | _ :: _ => None
  end.

(** ** The outside world *)

(** What [multer.memoryStorage()] leaves in [req.file]. *)
Record uploaded_file : Type := UploadedFile {
  originalname : string;
  mimetype : string;
  buffer : list Byte.byte
}.

(** The request as the handlers see it: [req.body] is the object left by
    [express.json()] or by multer, [req.file] is [undefined] ([None]) when
    no [audioData] part was uploaded. *)
Record request : Type := Request {
  req_body : gmap string value;
  req_file : option uploaded_file
}.

Record response : Type := Response {
  status : Z;
  body : value
}.

(** The request and response shapes of the three cloud clients. *)
Record RecognizeRequest : Type := {
  audio_content : string;
  config_encoding : string;
  config_sampleRateHertz : Z;
  config_languageCode : string
}.

Record SpeechAlternative : Type := { transcript : string }.
Record SpeechResult : Type := { alternatives : list SpeechAlternative }.
Record RecognizeResponse : Type := { results : list SpeechResult }.

Record SynthesizeRequest : Type := {
  input_text : value;
  voice_languageCode : string;
  voice_ssmlGender : string;
  audioConfig_audioEncoding : string
}.

Record SynthesizeResponse : Type := { audioContent : value }.

(** How a promise settles. *)
Inductive outcome (A : Type) : Type :=
| Resolved (a : A)
| Rejected (reason : string).
Arguments Resolved {A} a.
Arguments Rejected {A} reason.

(** Everything the program does not decide: the directory of the script,
    the answers of the three services, the clock, and the paths at which
    the operating system refuses a write or an unlink (with the code of the
    system error).  For a refused write, [write_reached] tells how far it
    got: [None] when the file could not be opened, [Some n] when it was
    opened (created or truncated, flag ['w']) and [n] bytes had been written
    when the fault was raised. *)
Record host : Type := Host {
  dirname : string;
  recognize : RecognizeRequest → outcome RecognizeResponse;
  translate : value → value → outcome value;
  synthesizeSpeech : SynthesizeRequest → outcome SynthesizeResponse;
  date_now : Z;
  write_fault : string → option string;
  write_reached : string → option nat;
  unlink_fault : string → option string
}.

(** The calls a handler makes to the outside, in the order they happen. *)
Inductive event : Type :=
| ERecognize (r : RecognizeRequest)
| ETranslate (text : value) (target : value)
| ESynthesize (r : SynthesizeRequest)
| EDateNow
| EWriteFile (path : string) (data : list Byte.byte)
| EUnlink (path : string)
| EConsoleError (label : string) (e : js_error).

Record world : Type := World {
  files : gmap string (list Byte.byte);
  log : list event
}.

Definition emit (ev : event) (w : world) : world :=
  {| files := files w; log := log w ++ [ev] |}.

(** ** Computations: state and exceptions *)

Inductive result (A : Type) : Type :=
| Ok (a : A)
| Throw (e : js_error).
Arguments Ok {A} a.
Arguments Throw {A} e.

Definition M (A : Type) : Type := world → result A * world.

#[global] Instance M_ret : MRet M := λ A a w, (Ok a, w).

#[global] Instance M_bind : MBind M := λ A B f m w,
  match m w with
  | (Ok a, w') => f a w'
  | (Throw e, w') => (Throw e, w')
  end.

Definition throw {A : Type} (e : js_error) : M A := λ w, (Throw e, w).

(** [try { m } catch (error) { handler error }]: the effects of [m] up to
    the exception stay. *)
Definition try_catch {A : Type} (m : M A) (handler : js_error → M A) : M A := λ w,
  match m w with
  | (Ok a, w') => (Ok a, w')
  | (Throw e, w') => handler e w'
  end.

Definition tell (ev : event) : M unit := λ w, (Ok tt, emit ev w).

Definition console_error (label : string) (e : js_error) : M unit :=
  tell (EConsoleError label e).

(** [await p] where [p] settled as [o]: a rejection is thrown at the site of
    the call. *)
Definition await {A : Type} (site : origin) (o : outcome A) : M A :=
  match o with
  | Resolved a => mret a
  | Rejected reason => throw (JsError site reason)
  end.

(** [res.status(code).send(body)] *)
Definition res_send (code : Z) (b : value) : M response :=
  mret (Response code b).

(** [path.join(...args)]: a [TypeError] when an argument is not a string. *)
Definition path_join (args : list value) : M string :=
  match validate_strings args with
  | Some segments => mret (posix_join segments)
  | None => throw (JsError PathJoin "ERR_INVALID_ARG_TYPE")
  end.

(** The bytes [fs.writeFileSync] accepts as [data]: a string or a buffer. *)
Definition data_bytes (data : value) : option (list Byte.byte) :=
  match data with
  | VBuffer b => Some b
  | VString s => Some (String.list_byte_of_string s)
  | _ => None
  end.

(** The [request] object [speechToText] builds from the uploaded buffer. *)
Definition speech_request (audioFile : uploaded_file) : RecognizeRequest :=
  let audioBytes := base64 (buffer audioFile) in
  {| audio_content := audioBytes;
     config_encoding := "WEBM_OPUS";
     config_sampleRateHertz := 48000;
     config_languageCode := "es-GT" |}.

(** The [request] object [synthesizer] builds from the text. *)
Definition synthesis_request (text : value) : SynthesizeRequest :=
  {| input_text := text;
     voice_languageCode := "en-US";
     voice_ssmlGender := "NEUTRAL";
     audioConfig_audioEncoding := "LINEAR16" |}.

(** The store a refused [fs.writeFileSync(path, bytes)] leaves: as it was
    when the open was refused; with the file created or truncated and
    holding the bytes written so far when the fault came after the open. *)
Definition after_refused_write (h : host) (path : string) (bytes : list Byte.byte)
    (store : gmap string (list Byte.byte)) : gmap string (list Byte.byte) :=
  match write_reached h path with
  | None => store
  | Some n => <[path := take n bytes]> store
  end.

Section Host.

Context (h : host).

(** [fs.writeFileSync(path, data)]: the type of [data] is checked before the
    file is opened with flag ['w']; a refused write leaves the store as
    [after_refused_write] says.  The event records the call that reached the
    system. *)
Definition writeFileSync (path : string) (data : value) : M unit := λ w,
  match data_bytes data with
  | None => (Throw (JsError FsWriteFile "ERR_INVALID_ARG_TYPE"), w)
  | Some bytes =>
      let w := emit (EWriteFile path bytes) w in
      match write_fault h path with
      | Some code =>
          (Throw (JsError FsWriteFile code),
           {| files := after_refused_write h path bytes (files w); log := log w |})
      | None => (Ok tt, {| files := <[path := bytes]> (files w); log := log w |})
      end
  end.

(** [fs.unlinkSync(path)] *)
Definition unlinkSync (path : string) : M unit := λ w,
  let w := emit (EUnlink path) w in
  match unlink_fault h path with
  | Some code => (Throw (JsError FsUnlink code), w)
  | None =>
      match files w !! path with
      | None => (Throw (JsError FsUnlink "ENOENT"), w)
      | Some _ => (Ok tt, {| files := delete path (files w); log := log w |})
      end
  end.

(** [Date.now()] *)
Definition Date_now : M Z :=
  tell EDateNow ;; mret (date_now h).

(** [const audioFolder = path.join(__dirname, 'audio_files')] *)
Definition audioFolder : string :=
  posix_join [dirname h; "audio_files"].

(** *** The adapters *)

(** [result => result.alternatives[0].transcript] *)
Definition best_transcript (r : SpeechResult) : M string :=
  match alternatives r with
  | alt :: _ => mret (transcript alt)
  | [] => throw (JsError TranscriptAccess "TypeError")
  end.

(** [Array.prototype.map] with a callback that may throw. *)
Fixpoint array_map {A B : Type} (f : A → M B) (l : list A) : M (list B) :=
  match l with
  | [] => mret []
  | x :: rest =>
      y ← f x;
      ys ← array_map f rest;
      mret (y :: ys)
  end.

Definition client_recognize (r : RecognizeRequest) : M RecognizeResponse :=
  tell (ERecognize r) ;; await SpeechRecognize (recognize h r).

Definition speechToText (audioFile : uploaded_file) : M value :=
  try_catch
    (let request := speech_request audioFile in
     response ← client_recognize request;
     transcripts ← array_map best_transcript (results response);
     let transcription := array_join " " transcripts in
     mret (VString transcription))
    (λ error,
       console_error "Error transcribing audio:" error ;;
       mret VUndefined).

Definition translateClient_translate (text textLang : value) : M value :=
  tell (ETranslate text textLang) ;; await TranslateCall (translate h text textLang).

Definition translateText (text : value) (textLang : value) : M value :=
  try_catch
    (translation ← translateClient_translate text textLang;
     mret translation)
    (λ error,
       console_error "Error translating text:" error ;;
       mret VUndefined).

Definition ttsClient_synthesizeSpeech (r : SynthesizeRequest) : M SynthesizeResponse :=
  tell (ESynthesize r) ;; await TtsSynthesize (synthesizeSpeech h r).

Definition synthesizer (text : value) : M value :=
  try_catch
    (let request := synthesis_request text in
     response ← ttsClient_synthesizeSpeech request;
     mret (audioContent response))
    (λ error,
       console_error "Error synthesizing speech:" error ;;
       mret VUndefined).

(** *** [app.post('/api/record_audio', upload.single('audioData'), ...)] *)

(** The handler from the transcription on, once the scratch file is written. *)
Definition record_audio_pipeline (audioFile : uploaded_file) (filePath : string)
  : M response :=
  transcription ← speechToText audioFile;
  unlinkSync filePath ;;
  translatedText ← translateText transcription (VString "en");
  res_send 200
    (object_literal
       [("message", VString "Transcription successful");
        ("audioTranscription", transcription);
        ("translatedText", translatedText)]).

Definition record_audio_rejected : M response :=
  res_send 400
    (object_literal [("error", VString "Audio data and file name are required")]).

(** The body of the [try] block. *)
Definition record_audio_try (req : request) : M response :=
  let fileName := get_prop (req_body req) "fileName" in
  match req_file req with
  | None => record_audio_rejected
  | Some audioFile =>
      if negb (truthy fileName) then record_audio_rejected
      else
        filePath ← path_join [VString (dirname h); VString "audio_files"; fileName];
        writeFileSync filePath (VBuffer (buffer audioFile)) ;;
        record_audio_pipeline audioFile filePath
  end.

(** The [catch] block: [{ error: 'Failed to process audio', error }]. *)
Definition record_audio_catch (error : js_error) : M response :=
  console_error "Error processing audio:" error ;;
  res_send 500
    (object_literal
       [("error", VString "Failed to process audio");
        ("error", VError error)]).

Definition record_audio (req : request) : M response :=
  try_catch (record_audio_try req) record_audio_catch.

(** The handler resumed right after the scratch file was written: what is
    left of the [try] block, under the same [catch]. *)
Definition record_audio_resume (audioFile : uploaded_file) (filePath : string)
  : M response :=
  try_catch (record_audio_pipeline audioFile filePath) record_audio_catch.

(** *** [app.post('/api/synthesize', ...)] *)

Definition synthesize_try (req : request) : M response :=
  let text := get_prop (req_body req) "text" in
  if negb (truthy text) then
    res_send 400 (object_literal [("error", VString "Text is required for synthesis")])
  else
    audioBuffer ← synthesizer text;
    now ← Date_now;
    let audioFileName := "output_" +:+ number_to_string now +:+ ".wav" in
    audioFilePath ← path_join [VString audioFolder; VString audioFileName];
    writeFileSync audioFilePath audioBuffer ;;
    res_send 200
      (object_literal
         [("audioURL", VString ("http://localhost:3001/audio/" +:+ audioFileName))]).

Definition synthesize_catch (error : js_error) : M response :=
  console_error "Error al sintetizar texto:" error ;;
  res_send 500 (object_literal [("error", VString "Failed to synthesize text")]).

Definition synthesize (req : request) : M response :=
  try_catch (synthesize_try req) synthesize_catch.

End Host.

(** ** Vocabulary of the statements *)

(** The transcripts [array_map best_transcript] collects, when every result
    has an alternative. *)
Fixpoint best_transcripts (rs : list SpeechResult) : option (list string) :=
  match rs with
  | [] => Some []
  | r :: rest =>
      match alternatives r with
      | alt :: _ => cons (transcript alt) <$> best_transcripts rest
      | [] => None
      end
  end.

(** The transcript of the first alternative of a recognized segment (the
    empty string where the segment has none). *)
Definition first_transcript (r : SpeechResult) : string :=
  match alternatives r with
  | alt :: _ => transcript alt
  | [] => ""
  end.

(** What [speechToText] returns and what it logs, as a function of the host
    and of the uploaded file alone. *)
Definition transcribed (h : host) (audioFile : uploaded_file) : value * list event :=
  let call := ERecognize (speech_request audioFile) in
  let failed e := (VUndefined, [call; EConsoleError "Error transcribing audio:" e]) in
  match recognize h (speech_request audioFile) with
  | Rejected reason => failed (JsError SpeechRecognize reason)
  | Resolved resp =>
      match best_transcripts (results resp) with
      | Some ts => (VString (array_join " " ts), [call])
      | None => failed (JsError TranscriptAccess "TypeError")
      end
  end.

(** What [translateText] returns and logs. *)
Definition translated (h : host) (text textLang : value) : value * list event :=
  let call := ETranslate text textLang in
  match translate h text textLang with
  | Resolved translation => (translation, [call])
  | Rejected reason =>
      (VUndefined,
       [call; EConsoleError "Error translating text:" (JsError TranslateCall reason)])
  end.

(** What [synthesizer] returns and logs. *)
Definition synthesized (h : host) (text : value) : value * list event :=
  let call := ESynthesize (synthesis_request text) in
  match synthesizeSpeech h (synthesis_request text) with
  | Resolved resp => (audioContent resp, [call])
  | Rejected reason =>
      (VUndefined,
       [call; EConsoleError "Error synthesizing speech:" (JsError TtsSynthesize reason)])
  end.

(** The body of the 200 of [/api/record_audio]. *)
Definition transcription_body (transcription translatedText : value) : value :=
  object_literal
    [("message", VString "Transcription successful");
     ("audioTranscription", transcription);
     ("translatedText", translatedText)].

(** [<scratch>/<fileName>] *)
Definition scratch_path (h : host) (name : string) : string :=
  posix_join [dirname h; "audio_files"; name].

(** The world right after [fs.writeFileSync(path, data)] went through. *)
Definition written (path : string) (data : list Byte.byte) (w : world) : world :=
  {| files := <[path := data]> (files w); log := log w ++ [EWriteFile path data] |}.

(** A request with an uploaded file and a non-empty string as [fileName]. *)
Definition well_formed_upload (req : request) (audioFile : uploaded_file) (name : string)
  : Prop :=
  req_file req = Some audioFile ∧
  req_body req !! "fileName" = Some (VString name) ∧
  name ≠ "".

(** The request with the property [k] removed from its body. *)
Definition without_field (k : string) (req : request) : request :=
  {| req_body := delete k (req_body req); req_file := req_file req |}.

(** The two 400 responses. *)
Definition audio_required : response :=
  Response 400 (VObject {[ "error" := VString "Audio data and file name are required" ]}).

Definition text_required : response :=
  Response 400 (VObject {[ "error" := VString "Text is required for synthesis" ]}).

(** No separator in the string. *)
Fixpoint slash_free (s : string) : bool :=
  match s with
  | EmptyString => true
  | String c rest => negb (Ascii.eqb c "/") && slash_free rest
  end.

(** A name that [path.join] appends as it is: no separator in it, and
    neither empty nor a dot segment. *)
Definition leaf (name : string) : Prop :=
  slash_free name = true ∧ name ≠ "" ∧ name ≠ "." ∧ name ≠ "..".

(** The segments of a directory, each followed by its separator. *)
Fixpoint dir_prefix (segments : list string) : string :=
  match segments with
  | [] => ""
  | x :: rest => x +:+ "/" +:+ dir_prefix rest
  end.

(** The generated name [output_<millis>.wav]. *)
Definition output_name (now : Z) : string :=
  "output_" +:+ number_to_string now +:+ ".wav".

(** Where [/api/synthesize] writes when the clock reads [now], and the URL
    it answers with. *)
Definition output_path (h : host) (now : Z) : string :=
  posix_join [audioFolder h; output_name now].

Definition audio_url (now : Z) : string :=
  "http://localhost:3001/audio/" +:+ output_name now.

(** A stack of segments on which [normalizeString] has nothing left to do:
    no empty or single-dot segment, and [..] only at the bottom, and only
    when the path may climb above its root. *)
Fixpoint settled (allowAboveRoot : bool) (stack : list string) : Prop :=
  match stack with
  | [] => True
  | top :: below =>
      if String.eqb top ".." then
        allowAboveRoot = true ∧ Forall (λ s, s = "..") below
      else (top ≠ "" ∧ top ≠ ".") ∧ settled allowAboveRoot below
  end.

(** The 500 of [/api/record_audio]: the raised error under [error]. *)
Definition echoed (error : js_error) : response :=
  Response 500 (VObject {[ "error" := VError error ]}).

(** The five ways a run of [/api/record_audio] ends, with the response and
    the world each leaves. *)
Inductive record_audio_run (h : host) (req : request) (w : world)
  : result response * world → Prop :=
| RunRejected :
    req_file req = None ∨ truthy (get_prop (req_body req) "fileName") = false →
    record_audio_run h req w (Ok audio_required, w)
| RunBadName (audioFile : uploaded_file) :
    req_file req = Some audioFile →
    truthy (get_prop (req_body req) "fileName") = true →
    (∀ name, get_prop (req_body req) "fileName" ≠ VString name) →
    record_audio_run h req w
      (Ok (echoed (JsError PathJoin "ERR_INVALID_ARG_TYPE")),
       {| files := files w;
          log := log w ++ [EConsoleError "Error processing audio:"
                             (JsError PathJoin "ERR_INVALID_ARG_TYPE")] |})
| RunWriteFault (audioFile : uploaded_file) (name code : string) :
    well_formed_upload req audioFile name →
    write_fault h (scratch_path h name) = Some code →
    record_audio_run h req w
      (Ok (echoed (JsError FsWriteFile code)),
       {| files := after_refused_write h (scratch_path h name) (buffer audioFile) (files w);
          log := log w ++ [EWriteFile (scratch_path h name) (buffer audioFile);
                           EConsoleError "Error processing audio:"
                             (JsError FsWriteFile code)] |})
| RunUnlinkFault (audioFile : uploaded_file) (name code : string) :
    well_formed_upload req audioFile name →
    write_fault h (scratch_path h name) = None →
    unlink_fault h (scratch_path h name) = Some code →
    record_audio_run h req w
      (Ok (echoed (JsError FsUnlink code)),
       {| files := <[scratch_path h name := buffer audioFile]> (files w);
          log := log w ++ [EWriteFile (scratch_path h name) (buffer audioFile)]
                   ++ (transcribed h audioFile).2
                   ++ [EUnlink (scratch_path h name);
                       EConsoleError "Error processing audio:" (JsError FsUnlink code)] |})
| RunCompleted (audioFile : uploaded_file) (name : string) :
    well_formed_upload req audioFile name →
    write_fault h (scratch_path h name) = None →
    unlink_fault h (scratch_path h name) = None →
    record_audio_run h req w
      (Ok (Response 200
             (transcription_body (transcribed h audioFile).1
                (translated h (transcribed h audioFile).1 (VString "en")).1)),
       {| files := delete (scratch_path h name) (files w);
          log := log w ++ [EWriteFile (scratch_path h name) (buffer audioFile)]
                   ++ (transcribed h audioFile).2
                   ++ [EUnlink (scratch_path h name)]
                   ++ (translated h (transcribed h audioFile).1 (VString "en")).2 |}).

(** Which call an event records. *)
Definition is_recognize (ev : event) : bool :=
  match ev with ERecognize _ => true | _ => false end.

Definition is_translate (ev : event) : bool :=
  match ev with ETranslate _ _ => true | _ => false end.

Definition is_synthesize (ev : event) : bool :=
  match ev with ESynthesize _ => true | _ => false end.

Definition is_unlink (ev : event) : bool :=
  match ev with EUnlink _ => true | _ => false end.

Definition is_write (ev : event) : bool :=
  match ev with EWriteFile _ _ => true | _ => false end.

(** Decimal digits only. *)
Fixpoint all_digits (s : string) : bool :=
  match s with
  | EmptyString => true
  | String c rest =>
      (48 <=? N_of_ascii c)%N && (N_of_ascii c <=? 57)%N && all_digits rest
  end.

(** The value of a base64 digit: its position in the alphabet. *)
Fixpoint index_from (i : N) (c : ascii) (s : string) : option N :=
  match s with
  | EmptyString => None
  | String d rest => if Ascii.eqb c d then Some i else index_from (i + 1) c rest
  end.

Definition base64_value (c : ascii) : option N := index_from 0 c base64_alphabet.

(** Reading base64 back, four digits at a time; used to show that [base64]
    loses nothing. *)
Fixpoint base64_decode (s : string) : option (list Byte.byte) :=
  match s with
  | EmptyString => Some []
  | String c1 (String c2 (String c3 (String c4 rest))) =>
      d1 ← base64_value c1;
      d2 ← base64_value c2;
      x ← Byte.of_N (d1 * 4 + d2 / 16);
      if Ascii.eqb c3 "=" then
        (if Ascii.eqb c4 "=" && String.eqb rest "" then Some [x] else None)
      else
        d3 ← base64_value c3;
        y ← Byte.of_N ((d2 mod 16) * 16 + d3 / 4);
        if Ascii.eqb c4 "=" then
          (if String.eqb rest "" then Some [x; y] else None)
        else
          d4 ← base64_value c4;
          z ← Byte.of_N ((d3 mod 4) * 64 + d4);
          tail ← base64_decode rest;
          Some (x :: y :: z :: tail)
  | _ => None
  end%N.

(** ** Sample hosts and requests *)

Module Samples.

Definition clip : uploaded_file :=
  {| originalname := "blob";
     mimetype := "audio/webm";
     buffer := String.list_byte_of_string "OggS-opus" |}.

(** Two recognized segments, the first with two alternatives. *)
Definition heard : RecognizeResponse :=
  {| results :=
       [ {| alternatives := [ {| transcript := "hola" |}; {| transcript := "ola" |} ] |};
         {| alternatives := [ {| transcript := "mundo" |} ] |} ] |}.

(** A second segment for which the service lists no alternative. *)
Definition half_heard : RecognizeResponse :=
  {| results :=
       [ {| alternatives := [ {| transcript := "hola" |} ] |};
         {| alternatives := [] |} ] |}.

Definition spoken : list Byte.byte := String.list_byte_of_string "RIFF-hello".

(** Every service answers, no system call is refused. *)
Definition studio : host :=
  {| dirname := "/srv/app";
     recognize := λ _, Resolved heard;
     translate := λ text _,
       match text with
       | VString "hola mundo" => Resolved (VString "hello world")
       | _ => Rejected "INVALID_ARGUMENT"
       end;
     synthesizeSpeech := λ _, Resolved {| audioContent := VBuffer spoken |};
     date_now := 1700000000123;
     write_fault := λ _, None;
     write_reached := λ _, None;
     unlink_fault := λ _, None |}.

(** The same host one millisecond later, with another voice. *)
Definition studio_later : host :=
  {| dirname := "/srv/app";
     recognize := recognize studio;
     translate := translate studio;
     synthesizeSpeech := λ _,
       Resolved {| audioContent := VBuffer (String.list_byte_of_string "RIFF-again") |};
     date_now := 1700000000124;
     write_fault := λ _, None;
     write_reached := λ _, None;
     unlink_fault := λ _, None |}.

(** The same host answering within the same millisecond. *)
Definition studio_same_tick : host :=
  {| dirname := "/srv/app";
     recognize := recognize studio;
     translate := translate studio;
     synthesizeSpeech := synthesizeSpeech studio_later;
     date_now := 1700000000123;
     write_fault := λ _, None;
     write_reached := λ _, None;
     unlink_fault := λ _, None |}.

(** The three services are down. *)
Definition offline : host :=
  {| dirname := "/srv/app";
     recognize := λ _, Rejected "UNAVAILABLE";
     translate := λ _ _, Rejected "UNAVAILABLE";
     synthesizeSpeech := λ _, Rejected "UNAVAILABLE";
     date_now := 1700000000123;
     write_fault := λ _, None;
     write_reached := λ _, None;
     unlink_fault := λ _, None |}.

(** The services are down and the scratch directory does not let entries
    be removed. *)
Definition offline_sticky : host :=
  {| dirname := "/srv/app";
     recognize := λ _, Rejected "UNAVAILABLE";
     translate := λ _ _, Rejected "UNAVAILABLE";
     synthesizeSpeech := λ _, Rejected "UNAVAILABLE";
     date_now := 1700000000123;
     write_fault := λ _, None;
     write_reached := λ _, None;
     unlink_fault := λ _, Some "EACCES" |}.

(** Every service answers, the scratch directory does not let entries be
    removed. *)
Definition sticky : host :=
  {| dirname := "/srv/app";
     recognize := recognize studio;
     translate := translate studio;
     synthesizeSpeech := synthesizeSpeech studio;
     date_now := 1700000000123;
     write_fault := λ _, None;
     write_reached := λ _, None;
     unlink_fault := λ _, Some "EACCES" |}.

(** Every service answers, nothing can be created below the scratch
    directory. *)
Definition read_only : host :=
  {| dirname := "/srv/app";
     recognize := recognize studio;
     translate := translate studio;
     synthesizeSpeech := synthesizeSpeech studio;
     date_now := 1700000000123;
     write_fault := λ _, Some "EROFS";
     write_reached := λ _, None;
     unlink_fault := λ _, None |}.

(** The recognition answers with a segment that has no alternative. *)
Definition hard_of_hearing : host :=
  {| dirname := "/srv/app";
     recognize := λ _, Resolved half_heard;
     translate := translate studio;
     synthesizeSpeech := synthesizeSpeech studio;
     date_now := 1700000000123;
     write_fault := λ _, None;
     write_reached := λ _, None;
     unlink_fault := λ _, None |}.

(** The disk fills up after four bytes of any write. *)
Definition full_disk : host :=
  {| dirname := "/srv/app";
     recognize := recognize studio;
     translate := translate studio;
     synthesizeSpeech := synthesizeSpeech studio;
     date_now := 1700000000123;
     write_fault := λ _, Some "ENOSPC";
     write_reached := λ _, Some 4%nat;
     unlink_fault := λ _, None |}.

Definition upload (fileName : value) : request :=
  {| req_body := {[ "fileName" := fileName ]}; req_file := Some clip |}.

Definition upload_without_name : request :=
  {| req_body := ∅; req_file := Some clip |}.

Definition say (text : value) : request :=
  {| req_body := {[ "text" := text ]}; req_file := None |}.

Definition say_nothing : request :=
  {| req_body := ∅; req_file := None |}.

Definition blank : world := {| files := ∅; log := [] |}.

End Samples.

(** ** Strings *)

Lemma string_app_assoc (a b c : string) : (a +:+ b) +:+ c = a +:+ (b +:+ c).
Proof.
  induction a as [|ch a IH]; [reflexivity|].
  change (String ch ((a +:+ b) +:+ c) = String ch (a +:+ (b +:+ c))).
  by rewrite IH.
Qed.

Lemma string_app_length (a b : string) :
  String.length (a +:+ b) = (String.length a + String.length b)%nat.
Proof.
  induction a as [|ch a IH]; [reflexivity|].
  change (S (String.length (a +:+ b)) = S (String.length a + String.length b)).
  by rewrite IH.
Qed.

(** Cancelling a common suffix. *)
Lemma string_app_inj_r (a b s : string) : a +:+ s = b +:+ s → a = b.
Proof.
  revert b; induction a as [|ch a IH]; intros [|ch' b] H.
  - reflexivity.
  - apply (f_equal String.length) in H.
    change (String ch' b +:+ s) with (String ch' (b +:+ s)) in H.
    change ("" +:+ s) with s in H.
    cbn [String.length] in H. rewrite string_app_length in H. lia.
  - apply (f_equal String.length) in H.
    change (String ch a +:+ s) with (String ch (a +:+ s)) in H.
    change ("" +:+ s) with s in H.
    cbn [String.length] in H. rewrite string_app_length in H. lia.
  - change (String ch (a +:+ s) = String ch' (b +:+ s)) in H.
    injection H as -> H. f_equal. by apply IH.
Qed.

(** ** [Array.prototype.join] is the separated concatenation *)

Lemma array_join_from_app (sep R x : string) (l : list string) :
  array_join_from sep (R +:+ x) false l = R +:+ array_join_from sep x false l.
Proof.
  revert x; induction l as [|y l IH]; intros x; [reflexivity|].
  cbn [array_join_from].
  rewrite <- IH. by rewrite !string_app_assoc.
Qed.

Lemma array_join_from_concat (sep x : string) (l : list string) :
  array_join_from sep x false l = String.concat sep (x :: l).
Proof.
  revert x; induction l as [|y l IH]; intros x; [reflexivity|].
  cbn [array_join_from].
  rewrite string_app_assoc, array_join_from_app, array_join_from_app, IH.
  reflexivity.
Qed.

Lemma array_join_concat (sep : string) (l : list string) :
  array_join sep l = String.concat sep l.
Proof.
  destruct l as [|x l]; [reflexivity|].
  unfold array_join. cbn [array_join_from].
  change ("" +:+ x) with x. apply array_join_from_concat.
Qed.

(** ** Running the adapters *)

Ltac unfold_monad :=
  unfold mbind, M_bind, mret, M_ret, try_catch, throw, tell, await,
    console_error, res_send in *.

Ltac log_assoc :=
  cbn; unfold emit; cbn [files log]; rewrite <- ?app_assoc; reflexivity.

Lemma array_map_best_transcript (rs : list SpeechResult) (w : world) :
  array_map best_transcript rs w =
    (match best_transcripts rs with
     | Some ts => Ok ts
     | None => Throw (JsError TranscriptAccess "TypeError")
     end, w).
Proof.
  induction rs as [|r rs IH]; [reflexivity|].
  cbn [array_map best_transcripts]. unfold mbind, M_bind at 1.
  unfold best_transcript at 1.
  destruct (alternatives r) as [|alt alts]; [reflexivity|].
  unfold mret at 1, M_ret at 1. unfold mbind, M_bind at 1.
  rewrite IH. by destruct (best_transcripts rs).
Qed.

Lemma best_transcripts_all (rs : list SpeechResult) :
  Forall (λ r, alternatives r ≠ []) rs →
  best_transcripts rs = Some (map first_transcript rs).
Proof.
  induction 1 as [|r rs Hr _ IH]; [reflexivity|].
  cbn [best_transcripts map]. unfold first_transcript at 1.
  destruct (alternatives r) as [|alt alts]; [done|]. by rewrite IH.
Qed.

Lemma best_transcripts_missing (rs : list SpeechResult) :
  Exists (λ r, alternatives r = []) rs → best_transcripts rs = None.
Proof.
  induction 1 as [r rs Hr|r rs _ IH]; cbn [best_transcripts].
  - by rewrite Hr.
  - destruct (alternatives r); [done|]. by rewrite IH.
Qed.

(** A segment without alternative makes the callback of [map] throw, and
    the adapter return [undefined]. *)
Example half_heard_is_undefined :
  best_transcripts (results Samples.half_heard) = None
  ∧ (speechToText
       {| dirname := "/srv/app";
          recognize := λ _, Resolved Samples.half_heard;
          translate := translate Samples.studio;
          synthesizeSpeech := synthesizeSpeech Samples.studio;
          date_now := 0;
          write_fault := λ _, None;
          write_reached := λ _, None;
          unlink_fault := λ _, None |}
       Samples.clip Samples.blank).1 = Ok VUndefined.
Proof.
  split; [apply best_transcripts_missing; right; by left|].
  vm_compute. reflexivity.
Qed.

Section Adapters.

Context (h : host).

(** The adapters never throw and leave the file store alone. *)
Lemma speechToText_run (audioFile : uploaded_file) (w : world) :
  speechToText h audioFile w =
    (Ok (transcribed h audioFile).1,
     {| files := files w; log := log w ++ (transcribed h audioFile).2 |}).
Proof.
  unfold speechToText, client_recognize, transcribed.
  unfold try_catch, tell, await.
  unfold mbind at 1, M_bind at 1. unfold mbind at 1, M_bind at 1.
  destruct (recognize h (speech_request audioFile)) as [resp|reason].
  - unfold mret at 1, M_ret at 1. unfold mbind at 1, M_bind at 1.
    rewrite array_map_best_transcript.
    destruct (best_transcripts (results resp)) as [ts|]; [reflexivity|].
    unfold console_error, tell, mbind, M_bind, mret, M_ret.
    log_assoc.
  - unfold throw, console_error, tell, mbind, M_bind, mret, M_ret.
    log_assoc.
Qed.

Lemma translateText_run (text textLang : value) (w : world) :
  translateText h text textLang w =
    (Ok (translated h text textLang).1,
     {| files := files w; log := log w ++ (translated h text textLang).2 |}).
Proof.
  unfold translateText, translateClient_translate, translated. unfold_monad.
  destruct (translate h text textLang) as [translation|reason]; [reflexivity|].
  log_assoc.
Qed.

Lemma synthesizer_run (text : value) (w : world) :
  synthesizer h text w =
    (Ok (synthesized h text).1,
     {| files := files w; log := log w ++ (synthesized h text).2 |}).
Proof.
  unfold synthesizer, ttsClient_synthesizeSpeech, synthesized. unfold_monad.
  destruct (synthesizeSpeech h (synthesis_request text)) as [resp|reason]; [reflexivity|].
  log_assoc.
Qed.

End Adapters.

(** ** Paths below a directory *)

Lemma slash_free_app (a b : string) :
  slash_free (a +:+ b) = slash_free a && slash_free b.
Proof.
  induction a as [|c a IH]; [reflexivity|].
  change (String c a +:+ b) with (String c (a +:+ b)).
  cbn [slash_free]. rewrite IH. by rewrite andb_assoc.
Qed.

Lemma split_slash_nonnil (s : string) : split_slash s ≠ [].
Proof.
  destruct s as [|c s]; cbn [split_slash]; [done|].
  destruct (Ascii.eqb c "/"); [done|]. by destruct (split_slash s).
Qed.

Lemma split_slash_app (a b : string) :
  split_slash (a +:+ String "/" b) = split_slash a ++ split_slash b.
Proof.
  induction a as [|c a IH]; [reflexivity|].
  change (String c a +:+ String "/" b) with (String c (a +:+ String "/" b)).
  cbn [split_slash]. rewrite IH.
  destruct (Ascii.eqb c "/"); [reflexivity|].
  pose proof (split_slash_nonnil a).
  by destruct (split_slash a).
Qed.

Lemma split_slash_free (s : string) : slash_free s = true → split_slash s = [s].
Proof.
  induction s as [|c s IH]; [reflexivity|].
  cbn [slash_free split_slash]. intros [Hc Hs]%andb_true_iff.
  apply negb_true_iff in Hc. rewrite Hc, (IH Hs). reflexivity.
Qed.

Lemma concat_snoc (l : list string) (x : string) :
  String.concat "/" (l ++ [x]) = dir_prefix l +:+ x.
Proof.
  induction l as [|y l IH]; [reflexivity|].
  cbn [app dir_prefix]. rewrite !string_app_assoc, <- IH.
  by destruct l.
Qed.

Lemma ends_with_slash_app (a b : string) :
  b ≠ "" → ends_with_slash (a +:+ b) = ends_with_slash b.
Proof.
  intros Hb. induction a as [|c a IH]; [reflexivity|].
  change (String c a +:+ b) with (String c (a +:+ b)).
  cbn [ends_with_slash]. rewrite IH.
  destruct (a +:+ b) eqn:E; [|reflexivity].
  destruct a; [|discriminate]. by destruct b.
Qed.

Lemma slash_free_no_trailing (s : string) :
  slash_free s = true → ends_with_slash s = false.
Proof.
  induction s as [|c s IH]; [reflexivity|].
  cbn [slash_free ends_with_slash]. intros [Hc Hs]%andb_true_iff.
  apply negb_true_iff in Hc. destruct s; [done|]. by apply IH.
Qed.

Lemma slash_free_no_leading (s : string) :
  slash_free s = true → starts_with_slash s = false.
Proof.
  destruct s as [|c s]; [reflexivity|].
  cbn [slash_free starts_with_slash]. intros [Hc _]%andb_true_iff.
  by apply negb_true_iff in Hc.
Qed.

Lemma string_app_nonempty_r (a b : string) : b ≠ "" → a +:+ b ≠ "".
Proof.
  intros Hb E. apply (f_equal String.length) in E.
  rewrite string_app_length in E. destruct b; [done|]. cbn in E. lia.
Qed.

Lemma normalize_step_leaf (allow : bool) (stack : list string) (name : string) :
  leaf name → normalize_step allow stack name = name :: stack.
Proof.
  intros (_ & H0 & H1 & H2). unfold normalize_step.
  apply String.eqb_neq in H0, H1, H2. by rewrite H0, H1, H2.
Qed.

(** Normalizing a path that ends in a leaf keeps the leaf as its end. *)
Lemma posix_normalize_leaf (dir name : string) :
  leaf name →
  posix_normalize (dir +:+ String "/" name) =
    (if starts_with_slash (dir +:+ "/") then "/" else "") +:+
    dir_prefix (rev (foldl (normalize_step (negb (starts_with_slash (dir +:+ "/")))) []
                       (split_slash dir))) +:+ name.
Proof.
  intros Hleaf. pose proof Hleaf as (Hfree & Hne & _).
  unfold posix_normalize.
  assert (dir +:+ String "/" name ≠ "") as Hjoined by (by apply string_app_nonempty_r).
  apply String.eqb_neq in Hjoined as ->.
  assert (starts_with_slash (dir +:+ String "/" name) = starts_with_slash (dir +:+ "/"))
    as -> by (by destruct dir).
  rewrite ends_with_slash_app by done.
  cbn [ends_with_slash]. destruct name as [|c name]; [done|].
  assert (ends_with_slash (String c name) = false) as Hend
    by (by apply slash_free_no_trailing).
  cbn [ends_with_slash] in Hend.
  cbn [slash_free] in Hfree. apply andb_true_iff in Hfree as [Hc Hfree'].
  apply negb_true_iff in Hc.
  replace (match String c name with "" => Ascii.eqb "/" "/" | String _ _ => ends_with_slash (String c name) end)
    with false by (cbn [ends_with_slash]; by rewrite Hend).
  unfold normalizeString.
  rewrite split_slash_app, foldl_app.
  rewrite (split_slash_free (String c name))
    by (cbn [slash_free]; by rewrite Hc, Hfree').
  cbn [foldl]. rewrite normalize_step_leaf by done.
  cbn [rev]. rewrite concat_snoc.
  set (P := dir_prefix _).
  assert (P +:+ String c name ≠ "") as HP by (by apply string_app_nonempty_r).
  apply String.eqb_neq in HP as ->.
  by destruct (starts_with_slash (dir +:+ "/")).
Qed.

Lemma posix_normalize_single_leaf (name : string) :
  leaf name → posix_normalize name = name.
Proof.
  intros Hleaf. pose proof Hleaf as (Hfree & Hne & _).
  unfold posix_normalize, normalizeString.
  pose proof Hne as ->%String.eqb_neq.
  rewrite slash_free_no_leading, slash_free_no_trailing by done.
  rewrite split_slash_free by done.
  cbn [foldl negb]. rewrite normalize_step_leaf by done.
  cbn [rev app String.concat].
  by apply String.eqb_neq in Hne as ->.
Qed.

(** Joining a directory and a leaf: the directory alone decides what comes
    before the leaf. *)
Lemma posix_join_leaf (dir : string) :
  ∃ before : string, ∀ name, leaf name → posix_join [dir; name] = before +:+ name.
Proof.
  destruct (decide (dir = "")) as [->|Hdir].
  - exists "". intros name Hleaf. pose proof Hleaf as (_ & Hne & _).
    unfold posix_join. cbn [filter list_filter].
    rewrite decide_False by (intros H; by apply H).
    rewrite decide_True by done.
    cbn [String.concat]. by apply posix_normalize_single_leaf.
  - eexists. intros name Hleaf. pose proof Hleaf as (_ & Hne & _).
    unfold posix_join. cbn [filter list_filter].
    rewrite !decide_True by done.
    cbn [String.concat].
    change (dir +:+ "/" +:+ name) with (dir +:+ String "/" name).
    rewrite posix_normalize_leaf by done.
    rewrite <- string_app_assoc. reflexivity.
Qed.

Lemma posix_join_leaf_inj (dir a b : string) :
  leaf a → leaf b → posix_join [dir; a] = posix_join [dir; b] → a = b.
Proof.
  intros Ha Hb. destruct (posix_join_leaf dir) as [before Hjoin].
  rewrite !Hjoin by done. apply String.app_inj.
Qed.

(** ** The generated name [output_<millis>.wav] *)

Lemma uint_slash_free (d : Decimal.uint) :
  slash_free (NilEmpty.string_of_uint d) = true.
Proof. induction d; cbn; auto. Qed.

Lemma number_to_string_slash_free (n : Z) : slash_free (number_to_string n) = true.
Proof.
  unfold number_to_string, NilZero.string_of_int, NilZero.string_of_uint.
  destruct (Z.to_int n) as [d|d]; destruct d; cbn [slash_free];
    try reflexivity; apply (uint_slash_free (_ d)) || apply uint_slash_free.
Qed.

Lemma output_name_leaf (now : Z) : leaf (output_name now).
Proof.
  unfold leaf, output_name. split; [|done].
  rewrite !slash_free_app, number_to_string_slash_free. reflexivity.
Qed.

Lemma number_to_string_inj (m n : Z) : number_to_string m = number_to_string n → m = n.
Proof.
  unfold number_to_string. intros H. apply DecimalZ.to_int_inj.
  assert (∀ z, Z.to_int z ≠ Decimal.Pos Decimal.Nil ∧ Z.to_int z ≠ Decimal.Neg Decimal.Nil)
    as Hnonnil.
  { intros [|p|p]; cbn; split; try discriminate;
      intros [=E]; by apply (DecimalPos.Unsigned.to_uint_nonnil p). }
  destruct (Hnonnil m) as [Hm1 Hm2], (Hnonnil n) as [Hn1 Hn2].
  pose proof (NilZero.isi _ Hm1 Hm2) as Em.
  pose proof (NilZero.isi _ Hn1 Hn2) as En.
  rewrite H in Em. congruence.
Qed.

Lemma output_name_inj (m n : Z) : output_name m = output_name n → m = n.
Proof.
  unfold output_name. intros H.
  apply String.app_inj, string_app_inj_r in H.
  by apply number_to_string_inj.
Qed.

(** ** Running the handlers *)

Section Handlers.

Context (h : host).

Lemma record_audio_pipeline_run (audioFile : uploaded_file) (filePath : string) (w : world) :
  record_audio_pipeline h audioFile filePath w =
    let t := transcribed h audioFile in
    let w1 := {| files := files w; log := (log w ++ t.2) ++ [EUnlink filePath] |} in
    match unlink_fault h filePath with
    | Some code => (Throw (JsError FsUnlink code), w1)
    | None =>
        match files w !! filePath with
        | None => (Throw (JsError FsUnlink "ENOENT"), w1)
        | Some _ =>
            let tr := translated h t.1 (VString "en") in
            (Ok (Response 200 (transcription_body t.1 tr.1)),
             {| files := delete filePath (files w); log := log w1 ++ tr.2 |})
        end
    end.
Proof.
  unfold record_audio_pipeline.
  unfold mbind at 1, M_bind at 1. rewrite speechToText_run.
  unfold mbind at 1, M_bind at 1. unfold unlinkSync, emit. cbn [files log].
  destruct (unlink_fault h filePath) as [code|]; [reflexivity|].
  destruct (files w !! filePath) as [content|]; [|reflexivity].
  unfold mbind, M_bind. rewrite translateText_run. reflexivity.
Qed.

Lemma record_audio_catch_run (error : js_error) (w : world) :
  record_audio_catch error w =
    (Ok (Response 500 (VObject {[ "error" := VError error ]})),
     emit (EConsoleError "Error processing audio:" error) w).
Proof.
  unfold record_audio_catch, object_literal. unfold_monad. cbn [foldl fst snd].
  by rewrite insert_insert_eq.
Qed.

Lemma record_audio_well_formed (req : request) (audioFile : uploaded_file) (name : string)
    (w : world) :
  well_formed_upload req audioFile name →
  record_audio h req w =
    match write_fault h (scratch_path h name) with
    | Some code =>
        record_audio_catch (JsError FsWriteFile code)
          {| files := after_refused_write h (scratch_path h name) (buffer audioFile)
                        (files w);
             log := log w ++ [EWriteFile (scratch_path h name) (buffer audioFile)] |}
    | None =>
        record_audio_resume h audioFile (scratch_path h name)
          (written (scratch_path h name) (buffer audioFile) w)
    end.
Proof.
  intros (Hfile & Hname & Hne).
  unfold record_audio, record_audio_resume, record_audio_try, get_prop.
  rewrite Hfile, Hname. cbn [truthy].
  apply String.eqb_neq in Hne as ->. cbn [negb].
  unfold path_join. cbn [validate_strings fmap option_fmap option_map].
  unfold try_catch at 1. unfold mbind at 1, M_bind at 1.
  unfold mret at 1, M_ret at 1. unfold mbind at 1, M_bind at 1.
  unfold writeFileSync. cbn [data_bytes]. fold (scratch_path h name).
  destruct (write_fault h (scratch_path h name)) as [code|]; reflexivity.
Qed.

End Handlers.

(** ** Validation of the required fields *)

Lemma record_audio_falsy_name (h : host) (req : request) (w : world) :
  truthy (get_prop (req_body req) "fileName") = false →
  record_audio h req w = (Ok audio_required, w).
Proof.
  intros Hfalsy. unfold record_audio, record_audio_try, try_catch.
  rewrite Hfalsy. by destruct (req_file req).
Qed.

Lemma record_audio_no_file (h : host) (req : request) (w : world) :
  req_file req = None → record_audio h req w = (Ok audio_required, w).
Proof.
  intros Hfile. unfold record_audio, record_audio_try, try_catch.
  by rewrite Hfile.
Qed.

Lemma synthesize_falsy_text (h : host) (req : request) (w : world) :
  truthy (get_prop (req_body req) "text") = false →
  synthesize h req w = (Ok text_required, w).
Proof.
  intros Hfalsy. unfold synthesize, synthesize_try, try_catch.
  by rewrite Hfalsy.
Qed.

(** C1. A request to [/api/record_audio] without the uploaded file or
    without the [fileName] field, and a request to [/api/synthesize] without
    the [text] field, are answered with status 400 and a body whose only
    property is [error].  The world comes back as it was: no call to a
    service or to the file system was logged and no file was written. *)
Theorem missing_required_input_rejected (h : host) (req : request) (w : world) :
  (req_file req = None ∨ req_body req !! "fileName" = None →
   record_audio h req w =
     (Ok (Response 400
            (VObject {[ "error" := VString "Audio data and file name are required" ]})),
      w))
  ∧
  (req_body req !! "text" = None →
   synthesize h req w =
     (Ok (Response 400
            (VObject {[ "error" := VString "Text is required for synthesis" ]})),
      w)).
Proof.
  split.
  - intros [Hfile|Hname].
    + by apply record_audio_no_file.
    + apply record_audio_falsy_name. unfold get_prop. by rewrite Hname.
  - intros Htext. apply synthesize_falsy_text. unfold get_prop. by rewrite Htext.
Qed.

Lemma nameless_upload_and_empty_body_rejected :
  record_audio Samples.studio Samples.upload_without_name Samples.blank =
    (Ok (Response 400
           (VObject {[ "error" := VString "Audio data and file name are required" ]})),
     Samples.blank)
  ∧
  synthesize Samples.offline Samples.say_nothing Samples.blank =
    (Ok (Response 400
           (VObject {[ "error" := VString "Text is required for synthesis" ]})),
     Samples.blank).
Proof.
  split.
  - apply (proj1 (missing_required_input_rejected
                    Samples.studio Samples.upload_without_name Samples.blank)).
    right. reflexivity.
  - apply (proj2 (missing_required_input_rejected
                    Samples.offline Samples.say_nothing Samples.blank)).
    reflexivity.
Defined.

(** C9. The checks test truthiness: with [fileName] the empty string
    [/api/record_audio] answers 400 exactly as it does once the field is
    removed from the body, and so does [/api/synthesize] with [text] the
    empty string. *)
Theorem empty_string_counts_as_missing (h : host) (req : request) (w : world) :
  (req_body req !! "fileName" = Some (VString "") →
   record_audio h req w =
     (Ok (Response 400
            (VObject {[ "error" := VString "Audio data and file name are required" ]})),
      w)
   ∧ record_audio h req w = record_audio h (without_field "fileName" req) w)
  ∧
  (req_body req !! "text" = Some (VString "") →
   synthesize h req w =
     (Ok (Response 400
            (VObject {[ "error" := VString "Text is required for synthesis" ]})),
      w)
   ∧ synthesize h req w = synthesize h (without_field "text" req) w).
Proof.
  split; intros Hfield.
  - rewrite !record_audio_falsy_name; [done| |].
    + unfold get_prop, without_field; cbn. by rewrite lookup_delete_eq.
    + unfold get_prop. by rewrite Hfield.
  - rewrite !synthesize_falsy_text; [done| |].
    + unfold get_prop, without_field; cbn. by rewrite lookup_delete_eq.
    + unfold get_prop. by rewrite Hfield.
Qed.

Lemma studio_empty_strings_rejected :
  (record_audio Samples.studio (Samples.upload (VString "")) Samples.blank =
     (Ok (Response 400
            (VObject {[ "error" := VString "Audio data and file name are required" ]})),
      Samples.blank)
   ∧ record_audio Samples.studio (Samples.upload (VString "")) Samples.blank =
     record_audio Samples.studio
       (without_field "fileName" (Samples.upload (VString ""))) Samples.blank)
  ∧
  (synthesize Samples.studio (Samples.say (VString "")) Samples.blank =
     (Ok (Response 400
            (VObject {[ "error" := VString "Text is required for synthesis" ]})),
      Samples.blank)
   ∧ synthesize Samples.studio (Samples.say (VString "")) Samples.blank =
     synthesize Samples.studio
       (without_field "text" (Samples.say (VString ""))) Samples.blank).
Proof.
  split.
  - apply (proj1 (empty_string_counts_as_missing
                    Samples.studio (Samples.upload (VString "")) Samples.blank)).
    reflexivity.
  - apply (proj2 (empty_string_counts_as_missing
                    Samples.studio (Samples.say (VString "")) Samples.blank)).
    reflexivity.
Defined.

(** ** Route A: transcription, deletion, translation *)

Section RouteA.

Context (h : host).

(** The handler on a well-formed upload whose scratch file could be written
    and removed. *)
Lemma record_audio_completes (req : request) (audioFile : uploaded_file) (name : string)
    (w : world) :
  well_formed_upload req audioFile name →
  write_fault h (scratch_path h name) = None →
  unlink_fault h (scratch_path h name) = None →
  let p := scratch_path h name in
  let t := transcribed h audioFile in
  let tr := translated h t.1 (VString "en") in
  record_audio h req w =
    (Ok (Response 200 (transcription_body t.1 tr.1)),
     {| files := delete p (files w);
        log := (((log w ++ [EWriteFile p (buffer audioFile)]) ++ t.2) ++ [EUnlink p]) ++ tr.2 |}).
Proof.
  intros Hreq Hwrite Hunlink. cbn zeta.
  rewrite (record_audio_well_formed h req audioFile name w Hreq), Hwrite.
  unfold record_audio_resume, try_catch.
  rewrite record_audio_pipeline_run. cbn zeta.
  rewrite Hunlink. unfold written; cbn [files log].
  rewrite lookup_insert_eq, delete_insert_eq. reflexivity.
Qed.

(** The handler on a well-formed upload whose scratch file could be written
    but not removed. *)
Lemma record_audio_unlink_fault (req : request) (audioFile : uploaded_file) (name code : string)
    (w : world) :
  well_formed_upload req audioFile name →
  write_fault h (scratch_path h name) = None →
  unlink_fault h (scratch_path h name) = Some code →
  let p := scratch_path h name in
  let error := JsError FsUnlink code in
  record_audio h req w =
    (Ok (Response 500 (VObject {[ "error" := VError error ]})),
     {| files := <[p := buffer audioFile]> (files w);
        log := (((log w ++ [EWriteFile p (buffer audioFile)]) ++ (transcribed h audioFile).2)
                  ++ [EUnlink p]) ++ [EConsoleError "Error processing audio:" error] |}).
Proof.
  intros Hreq Hwrite Hunlink. cbn zeta.
  rewrite (record_audio_well_formed h req audioFile name w Hreq), Hwrite.
  unfold record_audio_resume, try_catch.
  rewrite record_audio_pipeline_run. cbn zeta.
  rewrite Hunlink, record_audio_catch_run. reflexivity.
Qed.

End RouteA.

Lemma transcribed_rejected (h : host) (audioFile : uploaded_file) (reason : string) :
  recognize h (speech_request audioFile) = Rejected reason →
  (transcribed h audioFile).1 = VUndefined.
Proof. unfold transcribed. by intros ->. Qed.

Lemma translated_rejected (h : host) (text textLang : value) (reason : string) :
  translate h text textLang = Rejected reason →
  (translated h text textLang).1 = VUndefined.
Proof. unfold translated. by intros ->. Qed.

(** C2, as stated, fails: the services are down and the scratch file cannot
    be removed.  The upload is well formed, the transcription call is
    rejected and [speechToText] returns [undefined], yet the response is a
    500. *)
Lemma transcription_failure_with_unlink_fault_500 :
  well_formed_upload (Samples.upload (VString "a.webm")) Samples.clip "a.webm"
  ∧ recognize Samples.offline_sticky (speech_request Samples.clip) = Rejected "UNAVAILABLE"
  ∧ (speechToText Samples.offline_sticky Samples.clip
       (written "/srv/app/audio_files/a.webm" (buffer Samples.clip) Samples.blank)).1
    = Ok VUndefined
  ∧ (record_audio Samples.offline_sticky (Samples.upload (VString "a.webm")) Samples.blank).1
    = Ok (Response 500 (VObject {[ "error" := VError (JsError FsUnlink "EACCES") ]})).
Proof. repeat split; try done; vm_compute; reflexivity. Qed.

(** C2, amended.  On a well-formed upload whose scratch file is written and
    removed without a fault, the handler answers 200 with the values the two
    adapters returned; an adapter whose call is rejected returns
    [undefined], so a rejected transcription leaves [audioTranscription]
    undefined and a rejected translation leaves [translatedText]
    undefined. *)
Theorem adapter_failure_yields_200 (h : host) (req : request) (audioFile : uploaded_file)
    (name : string) (w : world) :
  well_formed_upload req audioFile name →
  write_fault h (scratch_path h name) = None →
  unlink_fault h (scratch_path h name) = None →
  ∃ (transcription translatedText : value) (w' : world),
    record_audio h req w =
      (Ok (Response 200
             (object_literal
                [("message", VString "Transcription successful");
                 ("audioTranscription", transcription);
                 ("translatedText", translatedText)])),
       w')
    ∧ (∀ w0, (speechToText h audioFile w0).1 = Ok transcription)
    ∧ (∀ w0, (translateText h transcription (VString "en") w0).1 = Ok translatedText)
    ∧ ((∃ reason, recognize h (speech_request audioFile) = Rejected reason) →
       transcription = VUndefined)
    ∧ ((∃ reason, translate h transcription (VString "en") = Rejected reason) →
       translatedText = VUndefined).
Proof.
  intros Hreq Hwrite Hunlink.
  eexists _, _, _. split; [|split; [|split; [|split]]].
  - by apply (record_audio_completes h req audioFile name w).
  - intros w0. by rewrite speechToText_run.
  - intros w0. by rewrite translateText_run.
  - intros [reason Hrej]. by eapply transcribed_rejected.
  - intros [reason Hrej]. by eapply translated_rejected.
Qed.

Lemma offline_upload_answers_200 :
  ∃ (transcription translatedText : value) (w' : world),
    record_audio Samples.offline (Samples.upload (VString "a.webm")) Samples.blank =
      (Ok (Response 200
             (object_literal
                [("message", VString "Transcription successful");
                 ("audioTranscription", transcription);
                 ("translatedText", translatedText)])),
       w')
    ∧ (∀ w0, (speechToText Samples.offline Samples.clip w0).1 = Ok transcription)
    ∧ (∀ w0, (translateText Samples.offline transcription (VString "en") w0).1
             = Ok translatedText)
    ∧ ((∃ reason, recognize Samples.offline (speech_request Samples.clip) = Rejected reason) →
       transcription = VUndefined)
    ∧ ((∃ reason, translate Samples.offline transcription (VString "en") = Rejected reason) →
       translatedText = VUndefined).
Proof.
  apply (adapter_failure_yields_200 Samples.offline (Samples.upload (VString "a.webm"))
           Samples.clip "a.webm" Samples.blank).
  - repeat split; done.
  - reflexivity.
  - reflexivity.
Defined.

(** C3, as stated, fails: nothing throws before the deletion step (the
    upload is well formed, the write goes through, the transcription is
    returned), the deletion itself is refused, the response is a 500 and the
    scratch file is still there. *)
Lemma unlink_fault_keeps_scratch_file :
  well_formed_upload (Samples.upload (VString "a.webm")) Samples.clip "a.webm"
  ∧ write_fault Samples.sticky "/srv/app/audio_files/a.webm" = None
  ∧ (speechToText Samples.sticky Samples.clip
       (written "/srv/app/audio_files/a.webm" (buffer Samples.clip) Samples.blank)).1
    = Ok (VString "hola mundo")
  ∧ (record_audio Samples.sticky (Samples.upload (VString "a.webm")) Samples.blank).1
    = Ok (Response 500 (VObject {[ "error" := VError (JsError FsUnlink "EACCES") ]}))
  ∧ files (record_audio Samples.sticky (Samples.upload (VString "a.webm")) Samples.blank).2
      !! "/srv/app/audio_files/a.webm"
    = Some (buffer Samples.clip).
Proof. repeat split; try done; vm_compute; reflexivity. Qed.

(** C3, amended.  On a well-formed upload for which no step up to and
    including the deletion throws, the handler answers 200, the upload was
    written at [<scratch>/<fileName>], and that path is not in the file
    store the handler leaves behind. *)
Theorem scratch_file_deleted_on_success (h : host) (req : request)
    (audioFile : uploaded_file) (name : string) (w : world) :
  well_formed_upload req audioFile name →
  write_fault h (scratch_path h name) = None →
  unlink_fault h (scratch_path h name) = None →
  ∃ (b : value) (w' : world),
    record_audio h req w = (Ok (Response 200 b), w')
    ∧ EWriteFile (scratch_path h name) (buffer audioFile) ∈ log w'
    ∧ files w' !! scratch_path h name = None.
Proof.
  intros Hreq Hwrite Hunlink.
  eexists _, _. split; [|split].
  - by apply (record_audio_completes h req audioFile name w).
  - cbn [log]. rewrite !elem_of_app. do 3 left. right. by apply list_elem_of_singleton.
  - cbn [files]. apply lookup_delete_eq.
Qed.

Lemma studio_upload_leaves_no_scratch_file :
  ∃ (b : value) (w' : world),
    record_audio Samples.studio (Samples.upload (VString "a.webm")) Samples.blank
      = (Ok (Response 200 b), w')
    ∧ EWriteFile (scratch_path Samples.studio "a.webm") (buffer Samples.clip) ∈ log w'
    ∧ files w' !! scratch_path Samples.studio "a.webm" = None.
Proof.
  apply (scratch_file_deleted_on_success Samples.studio (Samples.upload (VString "a.webm"))
           Samples.clip "a.webm" Samples.blank).
  - repeat split; done.
  - reflexivity.
  - reflexivity.
Defined.

(** ** Route A: what reaches the [catch] block *)

Lemma record_audio_non_string_name (h : host) (req : request) (audioFile : uploaded_file)
    (w : world) :
  req_file req = Some audioFile →
  truthy (get_prop (req_body req) "fileName") = true →
  (∀ name, get_prop (req_body req) "fileName" ≠ VString name) →
  record_audio h req w =
    record_audio_catch (JsError PathJoin "ERR_INVALID_ARG_TYPE") w.
Proof.
  intros Hfile Htruthy Hnot.
  unfold record_audio, record_audio_try. rewrite Hfile, Htruthy. cbn [negb].
  unfold path_join. cbn [validate_strings fmap option_fmap option_map].
  destruct (get_prop (req_body req) "fileName") as [| |b|n|s|bs|items|fields|e];
    try reflexivity.
  by destruct (Hnot s).
Qed.





(** C4.  The [catch] block answers 500, but the object literal
    [{ error: 'Failed to process audio', error }] defines the key [error]
    twice and keeps the second value: the body has one property, [error],
    holding the raised error, and the static message is nowhere in it.  So
    it is for an upload that the read-only scratch directory refuses. *)
Theorem duplicate_error_key_drops_message :
  (∀ (error : js_error) (w : world),
     ∃ (fields : gmap string value) (w' : world),
       record_audio_catch error w = (Ok (Response 500 (VObject fields)), w')
       ∧ fields !! "error" = Some (VError error)
       ∧ size fields = 1%nat
       ∧ ∀ k, fields !! k ≠ Some (VString "Failed to process audio"))
  ∧ (record_audio Samples.read_only (Samples.upload (VString "a.webm")) Samples.blank).1
    = Ok (Response 500 (VObject {[ "error" := VError (JsError FsWriteFile "EROFS") ]})).
Proof.
  split; [|vm_compute; reflexivity].
  intros error w. eexists _, _. split; [apply record_audio_catch_run|].
  split; [apply lookup_singleton_eq|]. split; [apply map_size_singleton|].
  intros k. destruct (decide (k = "error")) as [->|Hk].
  - rewrite lookup_singleton_eq. discriminate.
  - rewrite lookup_singleton_ne by done. discriminate.
Qed.

(** ** The transcription result *)

Lemma best_transcripts_Some (rs : list SpeechResult) (ts : list string) :
  best_transcripts rs = Some ts →
  ts = map first_transcript rs ∧ Forall (λ r, alternatives r ≠ []) rs.
Proof.
  revert ts; induction rs as [|r rs IH]; intros ts; cbn [best_transcripts map].
  - by intros [= <-].
  - unfold first_transcript at 1.
    destruct (alternatives r) as [|alt alts] eqn:Halt; [done|].
    destruct (best_transcripts rs) as [ts'|]; [|done].
    intros [= <-]. destruct (IH ts' eq_refl) as [-> Hall].
    split; [done|]. constructor; [by rewrite Halt|done].
Qed.

(** C6.  When the recognition resolves and every recognized segment has an
    alternative, [speechToText] returns the transcripts of the first
    alternative of each segment, in order, separated by single spaces; and
    whenever [speechToText] returns a string, it is that string for the
    response the service gave. *)
Theorem transcription_is_space_joined (h : host) (audioFile : uploaded_file) (w : world) :
  (∀ resp,
     recognize h (speech_request audioFile) = Resolved resp →
     Forall (λ r, alternatives r ≠ []) (results resp) →
     (speechToText h audioFile w).1
     = Ok (VString (String.concat " " (map first_transcript (results resp)))))
  ∧ (∀ s,
       (speechToText h audioFile w).1 = Ok (VString s) →
       ∃ resp,
         recognize h (speech_request audioFile) = Resolved resp
         ∧ Forall (λ r, alternatives r ≠ []) (results resp)
         ∧ s = String.concat " " (map first_transcript (results resp))).
Proof.
  rewrite speechToText_run. cbn [fst]. unfold transcribed. split.
  - intros resp -> Hall. rewrite (best_transcripts_all _ Hall). cbn [fst].
    by rewrite array_join_concat.
  - intros s.
    destruct (recognize h (speech_request audioFile)) as [resp|reason]; [|done].
    destruct (best_transcripts (results resp)) as [ts|] eqn:Hts; [|done].
    cbn [fst]. intros [= <-]. exists resp.
    destruct (best_transcripts_Some _ _ Hts) as [-> Hall].
    by rewrite array_join_concat.
Qed.

Lemma studio_hears_hola_mundo :
  (speechToText Samples.studio Samples.clip Samples.blank).1 = Ok (VString "hola mundo")
  ∧ ∃ resp,
      recognize Samples.studio (speech_request Samples.clip) = Resolved resp
      ∧ Forall (λ r, alternatives r ≠ []) (results resp)
      ∧ "hola mundo" = String.concat " " (map first_transcript (results resp)).
Proof.
  pose proof (transcription_is_space_joined Samples.studio Samples.clip Samples.blank)
    as [Hjoined Honly].
  split.
  - apply (Hjoined Samples.heard); [reflexivity|].
    repeat constructor; discriminate.
  - apply Honly. reflexivity.
Defined.

(** ** The scratch copy *)

(** C7.  Once the scratch file is written the handler goes on as
    [record_audio_resume]; from there, whatever bytes the scratch path
    holds, the response and the log of calls (the recognition request with
    the base64 of the in-memory buffer, the unlink, the translation with
    its argument, the console lines) are the same, and what the two
    adapters return does not depend on the world they run in. *)
Theorem scratch_copy_never_read (h : host) (req : request) (audioFile : uploaded_file)
    (name : string) (w : world) (content1 content2 : list Byte.byte) :
  well_formed_upload req audioFile name →
  write_fault h (scratch_path h name) = None →
  let p := scratch_path h name in
  let holding content :=
    {| files := <[p := content]> (files w);
       log := log w ++ [EWriteFile p (buffer audioFile)] |} in
  record_audio h req w = record_audio_resume h audioFile p (holding (buffer audioFile))
  ∧ (record_audio_resume h audioFile p (holding content1)).1
    = (record_audio_resume h audioFile p (holding content2)).1
  ∧ log (record_audio_resume h audioFile p (holding content1)).2
    = log (record_audio_resume h audioFile p (holding content2)).2
  ∧ ERecognize
      {| audio_content := base64 (buffer audioFile);
         config_encoding := "WEBM_OPUS";
         config_sampleRateHertz := 48000;
         config_languageCode := "es-GT" |}
    ∈ log (record_audio_resume h audioFile p (holding content1)).2
  ∧ (∀ w1 w2, (speechToText h audioFile w1).1 = (speechToText h audioFile w2).1)
  ∧ (∀ text w1 w2,
       (translateText h text (VString "en") w1).1
       = (translateText h text (VString "en") w2).1).
Proof.
  intros Hreq Hwrite. cbn zeta. split; [|split; [|split; [|split; [|split]]]].
  - by rewrite (record_audio_well_formed h req audioFile name w Hreq), Hwrite.
  - unfold record_audio_resume, try_catch. rewrite !record_audio_pipeline_run.
    cbn zeta. cbn [files log].
    destruct (unlink_fault h (scratch_path h name)); [by rewrite !record_audio_catch_run|].
    by rewrite !lookup_insert_eq.
  - unfold record_audio_resume, try_catch. rewrite !record_audio_pipeline_run.
    cbn zeta. cbn [files log].
    destruct (unlink_fault h (scratch_path h name)); [by rewrite !record_audio_catch_run|].
    by rewrite !lookup_insert_eq.
  - assert (ERecognize (speech_request audioFile) ∈ (transcribed h audioFile).2) as Hcall.
    { unfold transcribed.
      destruct (recognize h (speech_request audioFile)) as [resp|reason];
        [destruct (best_transcripts (results resp))|]; cbn [snd]; set_solver. }
    unfold record_audio_resume, try_catch. rewrite !record_audio_pipeline_run.
    cbn zeta. cbn [files log].
    destruct (unlink_fault h (scratch_path h name));
      [rewrite record_audio_catch_run|rewrite lookup_insert_eq];
      unfold emit; cbn [snd log]; rewrite !elem_of_app; auto.
  - intros w1 w2. by rewrite !speechToText_run.
  - intros text w1 w2. by rewrite !translateText_run.
Qed.

Lemma studio_ignores_scratch_content :
  let p := scratch_path Samples.studio "a.webm" in
  let holding content :=
    {| files := <[p := content]> (files Samples.blank);
       log := log Samples.blank ++ [EWriteFile p (buffer Samples.clip)] |} in
  record_audio Samples.studio (Samples.upload (VString "a.webm")) Samples.blank
  = record_audio_resume Samples.studio Samples.clip p (holding (buffer Samples.clip))
  ∧ (record_audio_resume Samples.studio Samples.clip p (holding (buffer Samples.clip))).1
    = (record_audio_resume Samples.studio Samples.clip p (holding Samples.spoken)).1
  ∧ log (record_audio_resume Samples.studio Samples.clip p (holding (buffer Samples.clip))).2
    = log (record_audio_resume Samples.studio Samples.clip p (holding Samples.spoken)).2
  ∧ ERecognize
      {| audio_content := base64 (buffer Samples.clip);
         config_encoding := "WEBM_OPUS";
         config_sampleRateHertz := 48000;
         config_languageCode := "es-GT" |}
    ∈ log (record_audio_resume Samples.studio Samples.clip p
             (holding (buffer Samples.clip))).2
  ∧ (∀ w1 w2,
       (speechToText Samples.studio Samples.clip w1).1
       = (speechToText Samples.studio Samples.clip w2).1)
  ∧ (∀ text w1 w2,
       (translateText Samples.studio text (VString "en") w1).1
       = (translateText Samples.studio text (VString "en") w2).1).
Proof.
  apply (scratch_copy_never_read Samples.studio (Samples.upload (VString "a.webm"))
           Samples.clip "a.webm" Samples.blank (buffer Samples.clip) Samples.spoken).
  - repeat split; done.
  - reflexivity.
Defined.

(** ** Route B: synthesis *)

Section RouteB.

Context (h : host).

(** The handler once the text passed the check. *)
Lemma synthesize_run (req : request) (w : world) :
  truthy (get_prop (req_body req) "text") = true →
  let text := get_prop (req_body req) "text" in
  let s := synthesized h text in
  let p := output_path h (date_now h) in
  let failed code w' :=
    (Ok (Response 500 (VObject {[ "error" := VString "Failed to synthesize text" ]})),
     emit (EConsoleError "Error al sintetizar texto:" (JsError FsWriteFile code)) w') in
  let w1 := {| files := files w; log := (log w ++ s.2) ++ [EDateNow] |} in
  synthesize h req w =
    match data_bytes s.1 with
    | None => failed "ERR_INVALID_ARG_TYPE" w1
    | Some bytes =>
        match write_fault h p with
        | Some code =>
            failed code
              {| files := after_refused_write h p bytes (files w);
                 log := log w1 ++ [EWriteFile p bytes] |}
        | None =>
            (Ok (Response 200
                   (VObject {[ "audioURL" := VString (audio_url (date_now h)) ]})),
             {| files := <[p := bytes]> (files w);
                log := log w1 ++ [EWriteFile p bytes] |})
        end
    end.
Proof.
  intros Htruthy. cbn zeta. unfold synthesize, synthesize_try. rewrite Htruthy.
  cbn [negb]. unfold try_catch at 1.
  unfold mbind at 1, M_bind at 1. rewrite synthesizer_run.
  unfold Date_now, tell. unfold mbind at 1, M_bind at 1.
  unfold mbind at 1, M_bind at 1. unfold mret at 1, M_ret at 1.
  unfold path_join. cbn [validate_strings fmap option_fmap option_map].
  unfold mbind at 1, M_bind at 1. unfold mret at 1, M_ret at 1.
  unfold mbind at 1, M_bind at 1. unfold writeFileSync.
  fold (output_name (date_now h)). fold (output_path h (date_now h)).
  unfold emit at 1. cbn [files log].
  destruct (data_bytes (synthesized h (get_prop (req_body req) "text")).1) as [bytes|];
    [|reflexivity].
  destruct (write_fault h (output_path h (date_now h))) as [code|]; reflexivity.
Qed.

End RouteB.

(** C8.  With [text] present and the synthesis call rejected, [synthesizer]
    returns [undefined], [fs.writeFileSync] refuses it as [data], the
    handler answers 500 with [error: 'Failed to synthesize text'], and the
    file store is left as it was. *)
Theorem failed_synthesis_yields_500 (h : host) (req : request) (w : world) (reason : string) :
  truthy (get_prop (req_body req) "text") = true →
  synthesizeSpeech h (synthesis_request (get_prop (req_body req) "text")) = Rejected reason →
  (∀ w0, (synthesizer h (get_prop (req_body req) "text") w0).1 = Ok VUndefined)
  ∧ (∀ path w0,
       writeFileSync h path VUndefined w0
       = (Throw (JsError FsWriteFile "ERR_INVALID_ARG_TYPE"), w0))
  ∧ ∃ w',
      synthesize h req w
      = (Ok (Response 500 (VObject {[ "error" := VString "Failed to synthesize text" ]})),
         w')
      ∧ files w' = files w
      ∧ ∀ path data, EWriteFile path data ∈ log w' → EWriteFile path data ∈ log w.
Proof.
  intros Htruthy Hrej.
  assert (synthesized h (get_prop (req_body req) "text")
          = (VUndefined,
             [ESynthesize (synthesis_request (get_prop (req_body req) "text"));
              EConsoleError "Error synthesizing speech:" (JsError TtsSynthesize reason)]))
    as Hsynth by (unfold synthesized; by rewrite Hrej).
  split; [|split].
  - intros w0. by rewrite synthesizer_run, Hsynth.
  - reflexivity.
  - rewrite (synthesize_run h req w Htruthy). cbn zeta. rewrite Hsynth.
    cbn [fst snd data_bytes]. eexists. split; [reflexivity|].
    split; [reflexivity|].
    intros path data. unfold emit; cbn [log].
    rewrite !elem_of_app, !elem_of_cons, !elem_of_nil.
    intros [[[?|[?|[?|[]]]]|[?|[]]]|[?|[]]]; done.
Qed.

Lemma offline_say_hola_500 :
  (∀ w0, (synthesizer Samples.offline (VString "hola") w0).1 = Ok VUndefined)
  ∧ (∀ path w0,
       writeFileSync Samples.offline path VUndefined w0
       = (Throw (JsError FsWriteFile "ERR_INVALID_ARG_TYPE"), w0))
  ∧ ∃ w',
      synthesize Samples.offline (Samples.say (VString "hola")) Samples.blank
      = (Ok (Response 500 (VObject {[ "error" := VString "Failed to synthesize text" ]})),
         w')
      ∧ files w' = files Samples.blank
      ∧ ∀ path data, EWriteFile path data ∈ log w' → EWriteFile path data ∈ log Samples.blank.
Proof.
  apply (failed_synthesis_yields_500 Samples.offline (Samples.say (VString "hola"))
           Samples.blank "UNAVAILABLE").
  - reflexivity.
  - reflexivity.
Defined.

(** C5, as stated, fails: the same text is synthesized twice within the same
    millisecond; both calls answer 200 with the same URL, the second write
    replaces the first and the store holds one file. *)
Lemma same_tick_same_file :
  let first := synthesize Samples.studio (Samples.say (VString "hola")) Samples.blank in
  let second := synthesize Samples.studio_same_tick (Samples.say (VString "hola")) first.2 in
  first.1
  = Ok (Response 200
          (VObject {[ "audioURL" :=
                        VString "http://localhost:3001/audio/output_1700000000123.wav" ]}))
  ∧ second.1 = first.1
  ∧ files first.2
    = {[ "/srv/app/audio_files/output_1700000000123.wav" := Samples.spoken ]}
  ∧ files second.2
    = {[ "/srv/app/audio_files/output_1700000000123.wav" :=
           String.list_byte_of_string "RIFF-again" ]}.
Proof. vm_compute. done. Qed.

(** C5, amended.  Two calls to [/api/synthesize] of the same server whose
    synthesis and write succeed each run the synthesis again and write the
    audio under [output_<millis>.wav] in the audio folder, answering with
    its URL, also for the same text.  When the two readings of the clock
    differ, so do the two names and the two paths, and both files are in the
    store afterwards; when they coincide, the names and the paths coincide
    and the file holds the audio of the second call. *)
Theorem synthesized_files_named_by_clock (h1 h2 : host) (req1 req2 : request) (w : world)
    (resp1 resp2 : SynthesizeResponse) (audio1 audio2 : list Byte.byte) :
  dirname h1 = dirname h2 →
  truthy (get_prop (req_body req1) "text") = true →
  truthy (get_prop (req_body req2) "text") = true →
  synthesizeSpeech h1 (synthesis_request (get_prop (req_body req1) "text")) = Resolved resp1 →
  synthesizeSpeech h2 (synthesis_request (get_prop (req_body req2) "text")) = Resolved resp2 →
  data_bytes (audioContent resp1) = Some audio1 →
  data_bytes (audioContent resp2) = Some audio2 →
  write_fault h1 (output_path h1 (date_now h1)) = None →
  write_fault h2 (output_path h2 (date_now h2)) = None →
  let name1 := "output_" +:+ number_to_string (date_now h1) +:+ ".wav" in
  let name2 := "output_" +:+ number_to_string (date_now h2) +:+ ".wav" in
  let path1 := posix_join [audioFolder h1; name1] in
  let path2 := posix_join [audioFolder h2; name2] in
  ∃ w1 w2,
    synthesize h1 req1 w
    = (Ok (Response 200
             (VObject {[ "audioURL" := VString ("http://localhost:3001/audio/" +:+ name1) ]})),
       w1)
    ∧ synthesize h2 req2 w1
      = (Ok (Response 200
               (VObject {[ "audioURL" := VString ("http://localhost:3001/audio/" +:+ name2) ]})),
         w2)
    ∧ files w1 !! path1 = Some audio1
    ∧ files w2 !! path2 = Some audio2
    ∧ log w2
      = log w
          ++ [ESynthesize (synthesis_request (get_prop (req_body req1) "text"));
              EDateNow;
              EWriteFile path1 audio1;
              ESynthesize (synthesis_request (get_prop (req_body req2) "text"));
              EDateNow;
              EWriteFile path2 audio2]
    ∧ (date_now h1 ≠ date_now h2 →
       name1 ≠ name2 ∧ path1 ≠ path2 ∧ files w2 !! path1 = Some audio1)
    ∧ (date_now h1 = date_now h2 →
       name1 = name2 ∧ path1 = path2 ∧ files w2 !! path1 = Some audio2).
Proof.
  intros Hdir Ht1 Ht2 Hs1 Hs2 Hd1 Hd2 Hw1 Hw2. cbn zeta.
  fold (output_name (date_now h1)) (output_name (date_now h2)).
  fold (output_path h1 (date_now h1)) (output_path h2 (date_now h2)).
  eexists _, _. split; [|split; [|split; [|split; [|split; [|split]]]]].
  - rewrite (synthesize_run h1 req1 w Ht1). cbn zeta.
    unfold synthesized. rewrite Hs1. cbn [fst snd]. rewrite Hd1, Hw1. reflexivity.
  - rewrite (synthesize_run h2 req2 _ Ht2). cbn zeta.
    unfold synthesized. rewrite Hs2. cbn [fst snd]. rewrite Hd2, Hw2. reflexivity.
  - cbn [files]. apply lookup_insert_eq.
  - cbn [files]. apply lookup_insert_eq.
  - cbn [log]. by rewrite <- !app_assoc.
  - intros Hnow.
    assert (output_name (date_now h1) ≠ output_name (date_now h2)) as Hnames
      by (intros E; by apply Hnow, output_name_inj).
    assert (output_path h1 (date_now h1) ≠ output_path h2 (date_now h2)) as Hpaths.
    { unfold output_path, audioFolder. rewrite Hdir. intros E.
      apply posix_join_leaf_inj in E; [done|apply output_name_leaf..]. }
    split; [done|]. split; [done|].
    cbn [files]. rewrite lookup_insert_ne by done. apply lookup_insert_eq.
  - intros Hnow.
    assert (output_path h1 (date_now h1) = output_path h2 (date_now h2)) as Hpaths
      by (unfold output_path, audioFolder; by rewrite Hdir, Hnow).
    split; [by rewrite Hnow|]. split; [done|].
    cbn [files]. rewrite Hpaths. apply lookup_insert_eq.
Qed.

Lemma studio_two_calls_named_by_clock :
  let name1 := "output_" +:+ number_to_string (date_now Samples.studio) +:+ ".wav" in
  let name2 := "output_" +:+ number_to_string (date_now Samples.studio_later) +:+ ".wav" in
  let path1 := posix_join [audioFolder Samples.studio; name1] in
  let path2 := posix_join [audioFolder Samples.studio_later; name2] in
  ∃ w1 w2,
    synthesize Samples.studio (Samples.say (VString "hola")) Samples.blank
    = (Ok (Response 200
             (VObject {[ "audioURL" := VString ("http://localhost:3001/audio/" +:+ name1) ]})),
       w1)
    ∧ synthesize Samples.studio_later (Samples.say (VString "hola")) w1
      = (Ok (Response 200
               (VObject {[ "audioURL" := VString ("http://localhost:3001/audio/" +:+ name2) ]})),
         w2)
    ∧ files w1 !! path1 = Some Samples.spoken
    ∧ files w2 !! path2 = Some (String.list_byte_of_string "RIFF-again")
    ∧ log w2
      = log Samples.blank
          ++ [ESynthesize
                (synthesis_request (get_prop (req_body (Samples.say (VString "hola"))) "text"));
              EDateNow;
              EWriteFile path1 Samples.spoken;
              ESynthesize
                (synthesis_request (get_prop (req_body (Samples.say (VString "hola"))) "text"));
              EDateNow;
              EWriteFile path2 (String.list_byte_of_string "RIFF-again")]
    ∧ (date_now Samples.studio ≠ date_now Samples.studio_later →
       name1 ≠ name2 ∧ path1 ≠ path2 ∧ files w2 !! path1 = Some Samples.spoken)
    ∧ (date_now Samples.studio = date_now Samples.studio_later →
       name1 = name2 ∧ path1 = path2
       ∧ files w2 !! path1 = Some (String.list_byte_of_string "RIFF-again")).
Proof.
  apply (synthesized_files_named_by_clock Samples.studio Samples.studio_later
           (Samples.say (VString "hola")) (Samples.say (VString "hola")) Samples.blank
           {| audioContent := VBuffer Samples.spoken |}
           {| audioContent := VBuffer (String.list_byte_of_string "RIFF-again") |}
           Samples.spoken (String.list_byte_of_string "RIFF-again")).
  - reflexivity.
  - reflexivity.
  - reflexivity.
  - reflexivity.
  - reflexivity.
  - reflexivity.
  - reflexivity.
  - reflexivity.
  - reflexivity.
Defined.

(** ** [path.join] on what [path.join] returned *)

Lemma settled_dots (allow : bool) (stack : list string) :
  allow = true → Forall (λ s, s = "..") stack → settled allow stack.
Proof.
  intros Hallow. induction 1 as [|top below -> Hbelow IH]; [done|].
  cbn [settled]. by rewrite String.eqb_refl.
Qed.

Lemma settled_step (allow : bool) (stack : list string) (seg : string) :
  settled allow stack → settled allow (normalize_step allow stack seg).
Proof.
  intros Hstack. unfold normalize_step.
  destruct (String.eqb_spec seg "") as [->|Hne]; [done|].
  destruct (String.eqb_spec seg ".") as [->|Hdot]; [done|]. cbn [orb].
  destruct (String.eqb_spec seg "..") as [->|Hup].
  - destruct stack as [|top below].
    + destruct allow; [|done]. cbn [settled]. by rewrite String.eqb_refl.
    + cbn [settled] in Hstack.
      destruct (String.eqb_spec top "..") as [->|Htop].
      * destruct Hstack as [-> Hbelow]. cbn [settled].
        rewrite String.eqb_refl. split; [done|]. by constructor.
      * by destruct Hstack.
  - cbn [settled]. by apply String.eqb_neq in Hup as ->.
Qed.

Lemma settled_foldl (allow : bool) (segments acc : list string) :
  settled allow acc → settled allow (foldl (normalize_step allow) acc segments).
Proof.
  revert acc; induction segments as [|seg segments IH]; intros acc Hacc; [done|].
  cbn [foldl]. by apply IH, settled_step.
Qed.

(** Pushing the segments of a settled stack again gives the stack back. *)
Lemma settled_refold (allow : bool) (stack : list string) :
  settled allow stack → foldl (normalize_step allow) [] (rev stack) = stack.
Proof.
  induction stack as [|top below IH]; [done|].
  cbn [settled rev]. rewrite foldl_app. cbn [foldl]. unfold normalize_step at 1.
  destruct (String.eqb_spec top "..") as [->|Htop].
  - intros [-> Hbelow]. rewrite IH by (by apply settled_dots). cbn.
    destruct Hbelow as [|s below' -> _]; [done|]. by rewrite String.eqb_refl.
  - intros [[Hne Hdot] Hbelow]. rewrite IH by done.
    apply String.eqb_neq in Hne as ->. by apply String.eqb_neq in Hdot as ->.
Qed.

Lemma settled_nonempty (allow : bool) (stack : list string) :
  settled allow stack → Forall (λ s, s ≠ "") stack.
Proof.
  induction stack as [|top below IH]; [done|]. cbn [settled].
  destruct (String.eqb_spec top "..") as [->|Htop].
  - intros [_ Hbelow]. constructor; [done|].
    eapply Forall_impl; [exact Hbelow|]. by intros s ->.
  - intros [[Hne _] Hbelow]. constructor; [done|]. by apply IH.
Qed.

Lemma split_slash_all_free (s : string) :
  Forall (λ seg, slash_free seg = true) (split_slash s).
Proof.
  induction s as [|c s IH]; [by repeat constructor|].
  cbn [split_slash]. destruct (Ascii.eqb c "/") eqn:Hc; [by constructor|].
  destruct (split_slash s) as [|seg segs];
    [constructor; [cbn [slash_free]; by rewrite Hc|done]|].
  apply Forall_cons in IH as [Hseg Hsegs]. constructor; [|done].
  cbn [slash_free]. by rewrite Hc, Hseg.
Qed.

Lemma normalize_step_free (allow : bool) (stack : list string) (seg : string) :
  Forall (λ s, slash_free s = true) stack → slash_free seg = true →
  Forall (λ s, slash_free s = true) (normalize_step allow stack seg).
Proof.
  intros Hstack Hseg. unfold normalize_step.
  destruct (_ || _); [done|].
  destruct (String.eqb seg "..").
  - destruct stack as [|top below]; [destruct allow; by repeat constructor|].
    destruct (String.eqb top ".."); [destruct allow; [by constructor|done]|].
    by apply Forall_cons in Hstack as [_ ?].
  - by constructor.
Qed.

Lemma normalize_foldl_free (allow : bool) (segments acc : list string) :
  Forall (λ s, slash_free s = true) acc →
  Forall (λ s, slash_free s = true) segments →
  Forall (λ s, slash_free s = true) (foldl (normalize_step allow) acc segments).
Proof.
  revert acc; induction segments as [|seg segments IH]; intros acc Hacc Hsegs; [done|].
  apply Forall_cons in Hsegs as [Hseg Hsegs].
  cbn [foldl]. apply IH; [|done]. by apply normalize_step_free.
Qed.

Lemma split_dir_prefix (segments : list string) (name : string) :
  Forall (λ s, slash_free s = true) segments → slash_free name = true →
  split_slash (dir_prefix segments +:+ name) = segments ++ [name].
Proof.
  intros Hsegs Hname. induction Hsegs as [|seg segments Hseg _ IH].
  - by apply split_slash_free.
  - cbn [dir_prefix]. rewrite !string_app_assoc.
    change ("/" +:+ dir_prefix segments +:+ name)
      with (String "/" (dir_prefix segments +:+ name)).
    rewrite split_slash_app, IH. by rewrite (split_slash_free seg).
Qed.

Lemma dir_prefix_snoc (segments : list string) (x : string) :
  dir_prefix (segments ++ [x]) = dir_prefix segments +:+ x +:+ "/".
Proof.
  induction segments as [|y segments IH]; [reflexivity|].
  cbn [app dir_prefix]. by rewrite IH, !string_app_assoc.
Qed.

Lemma dir_prefix_no_leading (segments : list string) (rest : string) :
  Forall (λ s, slash_free s = true) segments → Forall (λ s, s ≠ "") segments →
  starts_with_slash rest = false →
  starts_with_slash (dir_prefix segments +:+ rest) = false.
Proof.
  intros Hfree Hne Hrest. destruct segments as [|seg segments]; [done|].
  apply Forall_cons in Hfree as [Hseg _]. apply Forall_cons in Hne as [Hseg' _].
  cbn [dir_prefix]. rewrite !string_app_assoc.
  destruct seg as [|c seg]; [done|]. by apply slash_free_no_leading in Hseg.
Qed.

Section Normalized.

Context (dir a : string).
Hypothesis Ha : leaf a.

Let absolute : bool := starts_with_slash (dir +:+ "/").
Let stack : list string :=
  foldl (normalize_step (negb absolute)) [] (split_slash dir).
Let root : string := if absolute then "/" else "".

Lemma normalized_dir_shape :
  posix_normalize (dir +:+ String "/" a) = root +:+ dir_prefix (rev stack) +:+ a.
Proof. by apply posix_normalize_leaf. Qed.

Lemma stack_settled : settled (negb absolute) stack.
Proof. by apply settled_foldl. Qed.

Lemma stack_free : Forall (λ s, slash_free s = true) stack.
Proof. apply normalize_foldl_free; [done|apply split_slash_all_free]. Qed.

(** A leaf joined below a directory stays below it, ... *)
Lemma posix_normalize_two_leaves (n : string) :
  leaf n →
  posix_normalize ((dir +:+ String "/" a) +:+ String "/" n)
  = posix_normalize (dir +:+ String "/" a) +:+ "/" +:+ n.
Proof.
  intros Hn. rewrite normalized_dir_shape.
  rewrite posix_normalize_leaf by done.
  assert (starts_with_slash ((dir +:+ String "/" a) +:+ "/") = absolute) as ->
    by (unfold absolute; by destruct dir).
  fold root. rewrite split_slash_app, foldl_app.
  destruct Ha as (Hfree & _). rewrite (split_slash_free a) by done.
  cbn [foldl]. rewrite normalize_step_leaf by done. fold stack.
  cbn [rev]. rewrite dir_prefix_snoc. by rewrite !string_app_assoc.
Qed.

(** ... and joining below the normalized directory changes nothing. *)
Lemma posix_normalize_below_normalized (n : string) :
  leaf n →
  posix_normalize (posix_normalize (dir +:+ String "/" a) +:+ String "/" n)
  = posix_normalize (dir +:+ String "/" a) +:+ "/" +:+ n.
Proof.
  intros Hn. rewrite normalized_dir_shape.
  rewrite posix_normalize_leaf by done.
  destruct Ha as (Hfree & Hne & _).
  pose proof stack_settled as Hsettled. pose proof stack_free as Hstack.
  assert (Forall (λ s, slash_free s = true) (rev stack)) as Hrev
    by (by apply Forall_rev).
  assert (starts_with_slash ((root +:+ dir_prefix (rev stack) +:+ a) +:+ "/") = absolute)
    as ->.
  { unfold root. destruct absolute; [done|].
    change ("" +:+ dir_prefix (rev stack) +:+ a) with (dir_prefix (rev stack) +:+ a).
    rewrite string_app_assoc. apply dir_prefix_no_leading; [done| |].
    - apply Forall_rev. by eapply settled_nonempty.
    - destruct a as [|c a']; [done|]. by apply slash_free_no_leading in Hfree. }
  fold root.
  assert (foldl (normalize_step (negb absolute)) []
            (split_slash (root +:+ dir_prefix (rev stack) +:+ a)) = a :: stack) as ->.
  { unfold root. destruct absolute.
    - change ("/" +:+ dir_prefix (rev stack) +:+ a)
        with (String "/" (dir_prefix (rev stack) +:+ a)).
      cbn [split_slash Ascii.eqb]. cbn -[foldl normalize_step split_slash].
      rewrite split_dir_prefix by done. cbn [foldl]. unfold normalize_step at 2.
      cbn [String.eqb orb]. rewrite foldl_app, settled_refold by done.
      cbn [foldl]. by apply normalize_step_leaf.
    - change ("" +:+ dir_prefix (rev stack) +:+ a) with (dir_prefix (rev stack) +:+ a).
      rewrite split_dir_prefix by done.
      rewrite foldl_app, settled_refold by done.
      cbn [foldl]. by apply normalize_step_leaf. }
  cbn [rev]. rewrite dir_prefix_snoc. by rewrite !string_app_assoc.
Qed.

(** Climbing out of the leaf directory first: the leaf directory is gone. *)
Lemma posix_normalize_climb (n : string) :
  leaf n →
  posix_normalize ((dir +:+ String "/" a) +:+ String "/" ("../" +:+ n))
  = root +:+ dir_prefix (rev stack) +:+ n.
Proof.
  intros Hn.
  change ((dir +:+ String "/" a) +:+ String "/" ("../" +:+ n))
    with ((dir +:+ String "/" a) +:+ "/.." +:+ String "/" n).
  rewrite <- string_app_assoc.
  rewrite posix_normalize_leaf by done.
  assert (starts_with_slash ((((dir +:+ String "/" a) +:+ "/..")) +:+ "/") = absolute) as ->
    by (unfold absolute; by destruct dir).
  fold root.
  change ((dir +:+ String "/" a) +:+ "/..") with ((dir +:+ String "/" a) +:+ String "/" "..").
  rewrite !split_slash_app, !foldl_app.
  destruct Ha as (Hfree & Hne & Hdot & Hup). rewrite (split_slash_free a) by done.
  cbn [foldl split_slash Ascii.eqb]. cbn -[foldl normalize_step].
  cbn [foldl]. rewrite (normalize_step_leaf _ _ a) by done. fold stack.
  unfold normalize_step. cbn [String.eqb orb].
  cbn -[stack root dir_prefix rev].
  by apply String.eqb_neq in Hup as ->.
Qed.

End Normalized.

Lemma posix_normalize_leaf_below_leaf (a n : string) :
  leaf a → leaf n → posix_normalize (a +:+ String "/" n) = a +:+ "/" +:+ n.
Proof.
  intros Ha Hn. pose proof Ha as (Hfree & Hne & _).
  rewrite posix_normalize_leaf by done.
  assert (starts_with_slash (a +:+ "/") = false) as ->.
  { destruct a as [|c a']; [done|]. by apply slash_free_no_leading in Hfree. }
  rewrite split_slash_free by done. cbn [foldl negb].
  rewrite normalize_step_leaf by done. cbn [rev app dir_prefix].
  change ("" +:+ (a +:+ "/" +:+ "") +:+ n) with ((a +:+ "/" +:+ "") +:+ n).
  by rewrite !string_app_assoc.
Qed.

Lemma posix_join_two (dir a : string) :
  leaf a →
  posix_join [dir; a]
  = if decide (dir = "") then a else posix_normalize (dir +:+ String "/" a).
Proof.
  intros (Hfree & Hne & Hdots). unfold posix_join. cbn [filter list_filter].
  rewrite (decide_True (P := a ≠ "")) by done.
  destruct (decide (dir = "")) as [->|Hdir].
  - rewrite decide_False by (intros H; by apply H).
    cbn [String.concat]. by apply posix_normalize_single_leaf.
  - by rewrite decide_True by done.
Qed.

Lemma posix_join_two_nonempty (dir a : string) : leaf a → posix_join [dir; a] ≠ "".
Proof.
  intros Ha. rewrite posix_join_two by done. pose proof Ha as (_ & Hne & _).
  destruct (decide (dir = "")); [done|].
  rewrite posix_normalize_leaf by done. rewrite <- string_app_assoc.
  by apply string_app_nonempty_r.
Qed.

(** A leaf joined after a directory and a leaf directory: the name is
    appended to the joined directory, whether the three are joined at once
    or the name is joined to the joined directory. *)
Lemma posix_join_below (dir a n : string) :
  leaf a → leaf n →
  posix_join [dir; a; n] = posix_join [dir; a] +:+ "/" +:+ n
  ∧ posix_join [posix_join [dir; a]; n] = posix_join [dir; a] +:+ "/" +:+ n.
Proof.
  intros Ha Hn. pose proof Ha as (_ & Hane & _). pose proof Hn as (_ & Hnne & _).
  pose proof (posix_join_two_nonempty dir a Ha) as Hjoined.
  split.
  - rewrite (posix_join_two dir a) by done.
    unfold posix_join at 1. cbn [filter list_filter].
    rewrite (decide_True (P := a ≠ "")), (decide_True (P := n ≠ "")) by done.
    destruct (decide (dir = "")) as [->|Hdir].
    + rewrite decide_False by (intros H; by apply H).
      cbn [String.concat]. by apply posix_normalize_leaf_below_leaf.
    + rewrite decide_True by done. cbn [String.concat].
      change (dir +:+ "/" +:+ a +:+ "/" +:+ n)
        with (dir +:+ (String "/" a +:+ String "/" n)).
      rewrite <- (string_app_assoc dir (String "/" a) (String "/" n)).
      by apply posix_normalize_two_leaves.
  - unfold posix_join at 1. cbn [filter list_filter].
    rewrite (decide_True (P := posix_join [dir; a] ≠ "")) by done.
    rewrite (decide_True (P := n ≠ "")) by done.
    cbn [String.concat].
    change (posix_join [dir; a] +:+ "/" +:+ n)
      with (posix_join [dir; a] +:+ String "/" n) at 1.
    rewrite (posix_join_two dir a) by done.
    destruct (decide (dir = "")) as [->|Hdir].
    + by apply posix_normalize_leaf_below_leaf.
    + by apply posix_normalize_below_normalized.
Qed.

(** A name that climbs out of the leaf directory is joined to its parent. *)
Lemma posix_join_climb (dir a n : string) :
  leaf a → leaf n → posix_join [dir; a; "../" +:+ n] = posix_join [dir; n].
Proof.
  intros Ha Hn. pose proof Ha as (Hafree & Hane & Hadot & Haup).
  pose proof Hn as (Hnfree & Hnne & _).
  rewrite (posix_join_two dir n) by done.
  unfold posix_join. cbn [filter list_filter].
  rewrite (decide_True (P := a ≠ "")) by done.
  rewrite (decide_True (P := "../" +:+ n ≠ "")) by done.
  destruct (decide (dir = "")) as [->|Hdir].
  - rewrite decide_False by (intros H; by apply H). cbn [String.concat].
    change (a +:+ "/" +:+ "../" +:+ n) with (a +:+ (String "/" ".." +:+ String "/" n)).
    rewrite <- (string_app_assoc a (String "/" "..") (String "/" n)).
    rewrite posix_normalize_leaf by done.
    assert (starts_with_slash ((a +:+ String "/" "..") +:+ "/") = false) as ->.
    { destruct a as [|c a']; [done|]. by apply slash_free_no_leading in Hafree. }
    rewrite split_slash_app, foldl_app, (split_slash_free a) by done.
    cbn [foldl negb]. rewrite normalize_step_leaf by done.
    cbn [split_slash Ascii.eqb]. cbn -[foldl normalize_step].
    cbn [foldl]. unfold normalize_step. cbn [String.eqb orb].
    cbn -[dir_prefix rev]. by apply String.eqb_neq in Haup as ->.
  - rewrite decide_True by done. cbn [String.concat].
    change (dir +:+ "/" +:+ a +:+ "/" +:+ "../" +:+ n)
      with (dir +:+ (String "/" a +:+ String "/" ("../" +:+ n))).
    rewrite <- (string_app_assoc dir (String "/" a) (String "/" ("../" +:+ n))).
    rewrite posix_normalize_climb by done.
    by rewrite posix_normalize_leaf by done.
Qed.

Lemma audio_files_leaf : leaf "audio_files".
Proof. by repeat split. Qed.

(** ** A refused write *)

Lemma after_refused_write_other (h : host) (path other : string) (bytes : list Byte.byte)
    (store : gmap string (list Byte.byte)) :
  other ≠ path → after_refused_write h path bytes store !! other = store !! other.
Proof.
  intros Hne. unfold after_refused_write.
  destruct (write_reached h path); [|done]. by rewrite lookup_insert_ne.
Qed.

Lemma after_refused_write_keeps (h : host) (path other : string) (bytes : list Byte.byte)
    (store : gmap string (list Byte.byte)) :
  is_Some (store !! other) → is_Some (after_refused_write h path bytes store !! other).
Proof.
  intros Hsome. unfold after_refused_write.
  destruct (write_reached h path) as [n|]; [|done].
  destruct (decide (path = other)) as [->|Hne].
  - by rewrite lookup_insert_eq.
  - by rewrite lookup_insert_ne.
Qed.

(** ** Every run of [/api/record_audio] *)

Lemma well_formed_upload_name (req : request) (audioFile : uploaded_file) (name : string) :
  well_formed_upload req audioFile name →
  get_prop (req_body req) "fileName" = VString name
  ∧ truthy (get_prop (req_body req) "fileName") = true.
Proof.
  intros (_ & Hname & Hne). unfold get_prop. rewrite Hname. split; [done|].
  cbn [truthy]. by apply String.eqb_neq in Hne as ->.
Qed.

Lemma well_formed_upload_unique (req : request) (f1 f2 : uploaded_file) (n1 n2 : string) :
  well_formed_upload req f1 n1 → well_formed_upload req f2 n2 → f1 = f2 ∧ n1 = n2.
Proof. intros (Hf1 & Hn1 & _) (Hf2 & Hn2 & _). split; congruence. Qed.

Lemma record_audio_spec (h : host) (req : request) (w : world) :
  record_audio_run h req w (record_audio h req w).
Proof.
  destruct (req_file req) as [audioFile|] eqn:Hfile;
    [|rewrite record_audio_no_file by done; constructor; by left].
  destruct (truthy (get_prop (req_body req) "fileName")) eqn:Htruthy;
    [|rewrite record_audio_falsy_name by done; constructor; by right].
  assert (∀ v, get_prop (req_body req) "fileName" = v → (∀ name, v ≠ VString name) →
               record_audio_run h req w (record_audio h req w)) as Hbad.
  { intros v Hv Hnot.
    rewrite (record_audio_non_string_name h req audioFile w Hfile Htruthy)
      by (by rewrite Hv).
    rewrite record_audio_catch_run. apply (RunBadName h req w audioFile); try done.
    by rewrite Hv. }
  destruct (get_prop (req_body req) "fileName") as [| |b|n|name|bs|items|fields|e] eqn:Hname;
    try discriminate Htruthy;
    try (eapply Hbad; [reflexivity|discriminate]).
  assert (well_formed_upload req audioFile name) as Hreq.
  { split; [done|]. unfold get_prop in Hname.
    destruct (req_body req !! "fileName") as [v|]; [|done].
    split; [by subst|]. intros ->. discriminate Htruthy. }
  rewrite (record_audio_well_formed h req audioFile name w Hreq).
  destruct (write_fault h (scratch_path h name)) as [code|] eqn:Hwrite.
  { rewrite record_audio_catch_run. unfold emit; cbn [files log].
    rewrite <- app_assoc. by apply (RunWriteFault h req w audioFile name code). }
  unfold record_audio_resume, try_catch.
  rewrite record_audio_pipeline_run. cbn zeta.
  destruct (unlink_fault h (scratch_path h name)) as [code|] eqn:Hunlink.
  { rewrite record_audio_catch_run. unfold emit, written; cbn [files log].
    rewrite <- !app_assoc. by apply (RunUnlinkFault h req w audioFile name code). }
  unfold written; cbn [files log]. rewrite lookup_insert_eq, delete_insert_eq.
  rewrite <- !app_assoc. by apply (RunCompleted h req w audioFile name).
Qed.

(** ** Route A: statuses, calls and the file store *)

Ltac run_cases h req w out :=
  let Hrun := fresh "Hrun" in
  let Hout := fresh "Hout" in
  pose proof (record_audio_spec h req w) as Hrun;
  remember (record_audio h req w) as out eqn:Hout;
  destruct Hrun as [Hrej|f Hfile Htruthy Hnot|f name code Hreq Hwrite
                    |f name code Hreq Hwrite Hunlink|f name Hreq Hwrite Hunlink].

(** X1.  The handler of [/api/record_audio] never lets an exception out,
    and its status is decided by the request and two system calls: 400
    exactly when the file is missing or [fileName] is falsy, 200 exactly
    when [fileName] is a non-empty string and both the write and the unlink
    of the scratch file go through, 500 otherwise. *)
Theorem record_audio_status (h : host) (req : request) (w : world) :
  ∃ (r : response) (w' : world),
    record_audio h req w = (Ok r, w')
    ∧ (status r = 400 ↔
         req_file req = None ∨ truthy (get_prop (req_body req) "fileName") = false)
    ∧ (status r = 200 ↔
         ∃ audioFile name,
           well_formed_upload req audioFile name
           ∧ write_fault h (scratch_path h name) = None
           ∧ unlink_fault h (scratch_path h name) = None)
    ∧ (status r = 400 ∨ status r = 200 ∨ status r = 500).
Proof.
  run_cases h req w out; eexists _, _; (split; [reflexivity|]); cbn [status echoed audio_required].
  - split; [done|]. split; [|by left]. split; [done|].
    intros (f & name & Hreq & _).
    destruct (well_formed_upload_name req f name Hreq) as [_ Htruthy].
    destruct Hreq as (Hfile & _). destruct Hrej; congruence.
  - split; [|split; [|by right; right]].
    + split; [done|]. intros [?|?]; congruence.
    + split; [done|]. intros (f' & name & Hreq & _).
      destruct (well_formed_upload_name req f' name Hreq) as [Hname _].
      by destruct (Hnot name).
  - destruct (well_formed_upload_name req f name Hreq) as [_ Htruthy].
    split; [|split; [|by right; right]].
    + split; [done|]. destruct Hreq as (Hfile & _). intros [?|?]; congruence.
    + split; [done|]. intros (f' & name' & Hreq' & Hwrite' & _).
      destruct (well_formed_upload_unique _ _ _ _ _ Hreq Hreq') as [_ <-]. congruence.
  - destruct (well_formed_upload_name req f name Hreq) as [_ Htruthy].
    split; [|split; [|by right; right]].
    + split; [done|]. destruct Hreq as (Hfile & _). intros [?|?]; congruence.
    + split; [done|]. intros (f' & name' & Hreq' & _ & Hunlink').
      destruct (well_formed_upload_unique _ _ _ _ _ Hreq Hreq') as [_ <-]. congruence.
  - destruct (well_formed_upload_name req f name Hreq) as [_ Htruthy].
    split; [|split; [|by right; left]].
    + split; [done|]. destruct Hreq as (Hfile & _). intros [?|?]; congruence.
    + split; [|done]. intros _. by exists f, name.
Qed.

(** X2.  A truthy [fileName] that is not a string never reaches the file
    system or a service: [path.join] throws, the handler answers 500 with
    that error, and the only trace is the console line. *)
Theorem non_string_name_stops_at_path_join (h : host) (req : request)
    (audioFile : uploaded_file) (w : world) :
  req_file req = Some audioFile →
  truthy (get_prop (req_body req) "fileName") = true →
  (∀ name, get_prop (req_body req) "fileName" ≠ VString name) →
  record_audio h req w
  = (Ok (Response 500
           (VObject {[ "error" := VError (JsError PathJoin "ERR_INVALID_ARG_TYPE") ]})),
     {| files := files w;
        log := log w ++ [EConsoleError "Error processing audio:"
                           (JsError PathJoin "ERR_INVALID_ARG_TYPE")] |}).
Proof.
  intros Hfile Htruthy Hnot.
  rewrite (record_audio_non_string_name h req audioFile w Hfile Htruthy Hnot).
  apply record_audio_catch_run.
Qed.

Lemma object_name_stops_at_path_join :
  record_audio Samples.studio
    (Samples.upload (VObject {[ "a" := VString "a.webm" ]})) Samples.blank
  = (Ok (Response 500
           (VObject {[ "error" := VError (JsError PathJoin "ERR_INVALID_ARG_TYPE") ]})),
     {| files := files Samples.blank;
        log := log Samples.blank
                 ++ [EConsoleError "Error processing audio:"
                       (JsError PathJoin "ERR_INVALID_ARG_TYPE")] |}).
Proof.
  apply (non_string_name_stops_at_path_join Samples.studio
           (Samples.upload (VObject {[ "a" := VString "a.webm" ]})) Samples.clip
           Samples.blank).
  - reflexivity.
  - reflexivity.
  - intros name. vm_compute. discriminate.
Defined.

(** X3.  When everything goes through, the handler writes the upload,
    sends the buffer to the recognition, removes the scratch file, asks for
    the English translation of the joined transcript, in that order, and
    answers with the transcript and its translation; the store is left
    without the scratch file. *)
Theorem record_audio_transcribes_then_translates (h : host) (req : request)
    (audioFile : uploaded_file) (name : string) (w : world)
    (resp : RecognizeResponse) (translation : value) :
  well_formed_upload req audioFile name →
  write_fault h (scratch_path h name) = None →
  unlink_fault h (scratch_path h name) = None →
  recognize h (speech_request audioFile) = Resolved resp →
  Forall (λ r, alternatives r ≠ []) (results resp) →
  translate h (VString (String.concat " " (map first_transcript (results resp))))
    (VString "en") = Resolved translation →
  record_audio h req w
  = (Ok (Response 200
           (object_literal
              [("message", VString "Transcription successful");
               ("audioTranscription",
                VString (String.concat " " (map first_transcript (results resp))));
               ("translatedText", translation)])),
     {| files := delete (scratch_path h name) (files w);
        log := log w
                 ++ [EWriteFile (scratch_path h name) (buffer audioFile);
                     ERecognize (speech_request audioFile);
                     EUnlink (scratch_path h name);
                     ETranslate
                       (VString (String.concat " " (map first_transcript (results resp))))
                       (VString "en")] |}).
Proof.
  intros Hreq Hwrite Hunlink Hrec Hall Htr.
  rewrite (record_audio_completes h req audioFile name w Hreq Hwrite Hunlink).
  unfold transcribed. rewrite Hrec, (best_transcripts_all _ Hall). cbn [fst snd].
  rewrite array_join_concat. unfold translated. rewrite Htr. cbn [fst snd].
  by rewrite <- !app_assoc.
Qed.

Lemma studio_upload_hola_mundo :
  record_audio Samples.studio (Samples.upload (VString "a.webm")) Samples.blank
  = (Ok (Response 200
           (object_literal
              [("message", VString "Transcription successful");
               ("audioTranscription",
                VString (String.concat " " (map first_transcript (results Samples.heard))));
               ("translatedText", VString "hello world")])),
     {| files := delete (scratch_path Samples.studio "a.webm") (files Samples.blank);
        log := log Samples.blank
                 ++ [EWriteFile (scratch_path Samples.studio "a.webm") (buffer Samples.clip);
                     ERecognize (speech_request Samples.clip);
                     EUnlink (scratch_path Samples.studio "a.webm");
                     ETranslate
                       (VString (String.concat " "
                                   (map first_transcript (results Samples.heard))))
                       (VString "en")] |}).
Proof.
  apply (record_audio_transcribes_then_translates Samples.studio
           (Samples.upload (VString "a.webm")) Samples.clip "a.webm" Samples.blank
           Samples.heard (VString "hello world")).
  - repeat split; done.
  - reflexivity.
  - reflexivity.
  - reflexivity.
  - repeat constructor; discriminate.
  - reflexivity.
Defined.

(** X4.  A rejected transcription does not stop the pipeline: the
    translation service is still called, with [undefined] as the text, and
    the 200 carries whatever that call gives next to an undefined
    [audioTranscription]. *)
Theorem failed_transcription_still_translates (h : host) (req : request)
    (audioFile : uploaded_file) (name reason : string) (w : world) :
  well_formed_upload req audioFile name →
  write_fault h (scratch_path h name) = None →
  unlink_fault h (scratch_path h name) = None →
  recognize h (speech_request audioFile) = Rejected reason →
  ∃ w',
    record_audio h req w
    = (Ok (Response 200
             (object_literal
                [("message", VString "Transcription successful");
                 ("audioTranscription", VUndefined);
                 ("translatedText",
                  match translate h VUndefined (VString "en") with
                  | Resolved translation => translation
                  | Rejected _ => VUndefined
                  end)])),
       w')
    ∧ ETranslate VUndefined (VString "en") ∈ log w'.
Proof.
  intros Hreq Hwrite Hunlink Hrec.
  rewrite (record_audio_completes h req audioFile name w Hreq Hwrite Hunlink).
  unfold transcribed. rewrite Hrec. cbn [fst snd]. unfold translated.
  destruct (translate h VUndefined (VString "en")); cbn [fst snd];
    (eexists; split; [reflexivity|]);
    cbn [log]; rewrite !elem_of_app; right; rewrite elem_of_cons; by left.
Qed.

Lemma offline_upload_still_translates :
  ∃ w',
    record_audio Samples.offline (Samples.upload (VString "a.webm")) Samples.blank
    = (Ok (Response 200
             (object_literal
                [("message", VString "Transcription successful");
                 ("audioTranscription", VUndefined);
                 ("translatedText",
                  match translate Samples.offline VUndefined (VString "en") with
                  | Resolved translation => translation
                  | Rejected _ => VUndefined
                  end)])),
       w')
    ∧ ETranslate VUndefined (VString "en") ∈ log w'.
Proof.
  apply (failed_transcription_still_translates Samples.offline
           (Samples.upload (VString "a.webm")) Samples.clip "a.webm" "UNAVAILABLE"
           Samples.blank).
  - repeat split; done.
  - reflexivity.
  - reflexivity.
  - reflexivity.
Defined.

(** X5.  The handler of [/api/record_audio] touches no path of the store
    but the scratch path of the request. *)
Theorem record_audio_keeps_other_files (h : host) (req : request) (w : world)
    (path : string) :
  (∀ name, req_body req !! "fileName" = Some (VString name) → path ≠ scratch_path h name) →
  files (record_audio h req w).2 !! path = files w !! path.
Proof.
  intros Hother. run_cases h req w out; cbn [snd files]; try reflexivity.
  - destruct Hreq as (_ & Hname & _). by apply after_refused_write_other, Hother.
  - destruct Hreq as (_ & Hname & _). by rewrite lookup_insert_ne by (symmetry; auto).
  - destruct Hreq as (_ & Hname & _). by rewrite lookup_delete_ne by (symmetry; auto).
Qed.

Lemma studio_upload_keeps_app_js :
  files (record_audio Samples.studio (Samples.upload (VString "a.webm"))
           {| files := {[ "/srv/app/app.js" := Samples.spoken ]}; log := [] |}).2
    !! "/srv/app/app.js"
  = files {| files := {[ "/srv/app/app.js" := Samples.spoken ]}; log := [] |}
      !! "/srv/app/app.js".
Proof.
  apply (record_audio_keeps_other_files Samples.studio (Samples.upload (VString "a.webm"))
           {| files := {[ "/srv/app/app.js" := Samples.spoken ]}; log := [] |}
           "/srv/app/app.js").
  intros name Hname. vm_compute in Hname. injection Hname as <-.
  vm_compute. discriminate.
Defined.

(** X6.  The services are called only behind the file system: the
    recognition exactly when the scratch file of a well-formed upload was
    written, the translation exactly when it was also removed; the handler
    never calls the synthesis and never reads the clock. *)
Theorem record_audio_service_calls (h : host) (req : request) (w : world) :
  ∃ evs : list event,
    log (record_audio h req w).2 = log w ++ evs
    ∧ (Exists (λ ev, is_recognize ev = true) evs ↔
         ∃ audioFile name,
           well_formed_upload req audioFile name
           ∧ write_fault h (scratch_path h name) = None)
    ∧ (Exists (λ ev, is_translate ev = true) evs ↔
         ∃ audioFile name,
           well_formed_upload req audioFile name
           ∧ write_fault h (scratch_path h name) = None
           ∧ unlink_fault h (scratch_path h name) = None)
    ∧ Forall (λ ev, is_synthesize ev = false ∧ ev ≠ EDateNow) evs.
Proof.
  assert (∀ f, Exists (λ ev, is_recognize ev = true) (transcribed h f).2) as Hrec.
  { intros f. unfold transcribed.
    destruct (recognize h (speech_request f)) as [resp|reason];
      [destruct (best_transcripts (results resp))|]; by left. }
  assert (∀ f, Forall (λ ev, is_translate ev = false
                              ∧ is_synthesize ev = false ∧ ev ≠ EDateNow)
                 (transcribed h f).2) as Hrec'.
  { intros f. unfold transcribed.
    destruct (recognize h (speech_request f)) as [resp|reason];
      [destruct (best_transcripts (results resp))|]; by repeat constructor. }
  assert (∀ t, Exists (λ ev, is_translate ev = true) (translated h t (VString "en")).2
               ∧ Forall (λ ev, is_synthesize ev = false ∧ ev ≠ EDateNow)
                   (translated h t (VString "en")).2) as Htr.
  { intros t. unfold translated.
    destruct (translate h t (VString "en")); split; by repeat constructor. }
  run_cases h req w out; cbn [snd log].
  - exists []. rewrite app_nil_r. split; [done|].
    assert (¬ ∃ f name, well_formed_upload req f name) as Hnone.
    { intros (f & name & Hreq).
      destruct (well_formed_upload_name req f name Hreq) as [_ Htruthy].
      destruct Hreq as (Hfile & _). destruct Hrej; congruence. }
    split; [|split; [|done]]; (split; [by intros ?%Exists_nil|]);
      intros (f & name & Hreq & _); destruct Hnone; by exists f, name.
  - eexists. split; [reflexivity|].
    assert (¬ ∃ f' name, well_formed_upload req f' name) as Hnone.
    { intros (f' & name & Hreq).
      destruct (well_formed_upload_name req f' name Hreq) as [Hname _].
      by destruct (Hnot name). }
    split; [|split; [|by repeat constructor]];
      (split; [intros [Hev|Hev%Exists_nil]%Exists_cons; done|]);
      intros (f' & name & Hreq & _); destruct Hnone; by exists f', name.
  - eexists. split; [reflexivity|].
    split; [|split; [|by repeat constructor]];
      (split; [intros [Hev|[Hev|Hev%Exists_nil]%Exists_cons]%Exists_cons; done|]).
    + intros (f' & name' & Hreq' & Hwrite').
      destruct (well_formed_upload_unique _ _ _ _ _ Hreq Hreq') as [_ <-]. congruence.
    + intros (f' & name' & Hreq' & Hwrite' & _).
      destruct (well_formed_upload_unique _ _ _ _ _ Hreq Hreq') as [_ <-]. congruence.
  - eexists. split; [reflexivity|]. split; [|split].
    + split; [intros _; by exists f, name|]. intros _.
      apply Exists_app; right. apply Exists_app; left. apply Hrec.
    + split.
      * rewrite !Exists_app. intros [Hev|[Hev|Hev]].
        -- by apply Exists_cons in Hev as [?|?%Exists_nil].
        -- apply Exists_exists in Hev as (ev & Hin & Hev).
           pose proof (Hrec' f) as Hall. rewrite Forall_forall in Hall.
           destruct (Hall ev Hin) as [? _]. congruence.
        -- by apply Exists_cons in Hev as [?|[?|?%Exists_nil]%Exists_cons].
      * intros (f' & name' & Hreq' & _ & Hunlink').
        destruct (well_formed_upload_unique _ _ _ _ _ Hreq Hreq') as [_ <-]. congruence.
    + rewrite !Forall_app. split; [by repeat constructor|]. split.
      * eapply Forall_impl; [apply Hrec'|]. by intros ev (_ & ? & ?).
      * by repeat constructor.
  - eexists. split; [reflexivity|]. split; [|split].
    + split; [intros _; by exists f, name|]. intros _.
      apply Exists_app; right. apply Exists_app; left. apply Hrec.
    + split; [intros _; by exists f, name|]. intros _.
      rewrite !Exists_app. do 3 right. apply Htr.
    + rewrite !Forall_app. split; [by repeat constructor|]. split; [|split].
      * eapply Forall_impl; [apply Hrec'|]. by intros ev (_ & ? & ?).
      * by repeat constructor.
      * apply Htr.
Qed.

(** ** Route B: statuses, calls and the file store *)

Lemma output_path_in_folder (h : host) (now : Z) :
  output_path h now = audioFolder h +:+ "/" +:+ output_name now.
Proof.
  unfold output_path, audioFolder.
  apply (posix_join_below (dirname h) "audio_files" (output_name now)).
  - apply audio_files_leaf.
  - apply output_name_leaf.
Qed.

(** X7.  The handler of [/api/synthesize] never lets an exception out: it
    answers 400 exactly when [text] is falsy, 200 exactly when the synthesis
    resolved with a string or a buffer as [audioContent] and the write went
    through, and 500 otherwise. *)
Theorem synthesize_status (h : host) (req : request) (w : world) :
  ∃ (r : response) (w' : world),
    synthesize h req w = (Ok r, w')
    ∧ (status r = 400 ↔ truthy (get_prop (req_body req) "text") = false)
    ∧ (status r = 200 ↔
         truthy (get_prop (req_body req) "text") = true
         ∧ ∃ resp bytes,
             synthesizeSpeech h (synthesis_request (get_prop (req_body req) "text"))
             = Resolved resp
             ∧ data_bytes (audioContent resp) = Some bytes
             ∧ write_fault h (output_path h (date_now h)) = None)
    ∧ (status r = 400 ∨ status r = 200 ∨ status r = 500).
Proof.
  destruct (truthy (get_prop (req_body req) "text")) eqn:Htruthy.
  - rewrite (synthesize_run h req w Htruthy). cbn zeta. unfold synthesized.
    destruct (synthesizeSpeech h (synthesis_request (get_prop (req_body req) "text")))
      as [resp|reason] eqn:Hsynth; cbn [fst snd].
    + destruct (data_bytes (audioContent resp)) as [bytes|] eqn:Hdata.
      * destruct (write_fault h (output_path h (date_now h))) as [code|] eqn:Hwrite;
          eexists _, _; (split; [reflexivity|]); cbn [status].
        -- split; [done|]. split; [|by right; right]. split; [done|].
           intros (_ & resp' & bytes' & [= <-] & _ & ?). congruence.
        -- split; [done|]. split; [|by right; left]. split; [|done].
           intros _. split; [done|]. by exists resp, bytes.
      * eexists _, _. split; [reflexivity|]. cbn [status].
        split; [done|]. split; [|by right; right]. split; [done|].
        intros (_ & resp' & bytes' & [= <-] & ? & _). congruence.
    + eexists _, _. split; [reflexivity|]. cbn [status data_bytes].
      split; [done|]. split; [|by right; right]. split; [done|].
      by intros (_ & resp' & bytes' & ? & _).
  - rewrite (synthesize_falsy_text h req w Htruthy). eexists _, _.
    split; [reflexivity|]. cbn [status text_required].
    split; [done|]. split; [|by left]. split; [done|]. by intros [? _].
Qed.

(** What a 200 of [/api/synthesize] tells about the run. *)
Lemma synthesize_200_inversion (h : host) (req : request) (w w' : world) (r : response) :
  synthesize h req w = (Ok r, w') →
  status r = 200 →
  ∃ resp bytes,
    synthesizeSpeech h (synthesis_request (get_prop (req_body req) "text")) = Resolved resp
    ∧ data_bytes (audioContent resp) = Some bytes
    ∧ body r = VObject {[ "audioURL" := VString (audio_url (date_now h)) ]}
    ∧ files w' !! output_path h (date_now h) = Some bytes
    ∧ log w'
      = log w
          ++ [ESynthesize (synthesis_request (get_prop (req_body req) "text"));
              EDateNow;
              EWriteFile (output_path h (date_now h)) bytes].
Proof.
  destruct (truthy (get_prop (req_body req) "text")) eqn:Htruthy;
    [|rewrite (synthesize_falsy_text h req w Htruthy); by intros [= <- <-]].
  rewrite (synthesize_run h req w Htruthy). cbn zeta. unfold synthesized.
  destruct (synthesizeSpeech h (synthesis_request (get_prop (req_body req) "text")))
    as [resp|reason]; cbn [fst snd]; [|by intros [= <- <-]].
  destruct (data_bytes (audioContent resp)) as [bytes|] eqn:Hdata;
    [|by intros [= <- <-]].
  destruct (write_fault h (output_path h (date_now h))); [by intros [= <- <-]|].
  intros [= <- <-] _. exists resp, bytes. cbn [body files log].
  split; [done|]. split; [done|]. split; [reflexivity|].
  split; [apply lookup_insert_eq|]. by rewrite <- !app_assoc.
Qed.

(** X8.  Whenever [/api/synthesize] answers 200, the service resolved, the
    URL in the body names [output_<millis>.wav] for the reading of the
    clock, and the file of that name directly in the audio folder holds
    exactly the bytes the service returned; the calls were the synthesis,
    the clock and that one write, in this order. *)
Theorem synthesize_200_stores_the_audio (h : host) (req : request) (w w' : world)
    (r : response) :
  synthesize h req w = (Ok r, w') →
  status r = 200 →
  ∃ resp bytes,
    synthesizeSpeech h (synthesis_request (get_prop (req_body req) "text")) = Resolved resp
    ∧ data_bytes (audioContent resp) = Some bytes
    ∧ body r
      = VObject {[ "audioURL" :=
                     VString ("http://localhost:3001/audio/"
                                +:+ "output_" +:+ number_to_string (date_now h) +:+ ".wav") ]}
    ∧ files w'
        !! (audioFolder h +:+ "/" +:+ "output_" +:+ number_to_string (date_now h) +:+ ".wav")
      = Some bytes
    ∧ log w'
      = log w
          ++ [ESynthesize (synthesis_request (get_prop (req_body req) "text"));
              EDateNow;
              EWriteFile
                (audioFolder h +:+ "/" +:+ "output_" +:+ number_to_string (date_now h)
                   +:+ ".wav")
                bytes].
Proof.
  fold (output_name (date_now h)). rewrite <- output_path_in_folder.
  apply synthesize_200_inversion.
Qed.

Lemma studio_say_hola_stores_the_audio :
  ∃ resp bytes,
    synthesizeSpeech Samples.studio
      (synthesis_request (get_prop (req_body (Samples.say (VString "hola"))) "text"))
    = Resolved resp
    ∧ data_bytes (audioContent resp) = Some bytes
    ∧ body (Response 200
              (VObject {[ "audioURL" :=
                            VString "http://localhost:3001/audio/output_1700000000123.wav" ]}))
      = VObject {[ "audioURL" :=
                     VString ("http://localhost:3001/audio/"
                                +:+ "output_" +:+ number_to_string (date_now Samples.studio)
                                +:+ ".wav") ]}
    ∧ files (synthesize Samples.studio (Samples.say (VString "hola")) Samples.blank).2
        !! (audioFolder Samples.studio +:+ "/" +:+ "output_"
              +:+ number_to_string (date_now Samples.studio) +:+ ".wav")
      = Some bytes
    ∧ log (synthesize Samples.studio (Samples.say (VString "hola")) Samples.blank).2
      = log Samples.blank
          ++ [ESynthesize
                (synthesis_request (get_prop (req_body (Samples.say (VString "hola"))) "text"));
              EDateNow;
              EWriteFile
                (audioFolder Samples.studio +:+ "/" +:+ "output_"
                   +:+ number_to_string (date_now Samples.studio) +:+ ".wav")
                bytes].
Proof.
  apply (synthesize_200_stores_the_audio Samples.studio (Samples.say (VString "hola"))
           Samples.blank).
  - vm_compute. reflexivity.
  - reflexivity.
Defined.

(** X9.  [/api/synthesize] never removes or changes a file other than the
    one it names after the clock: every other path keeps its content, and
    every file that was in the store is still there afterwards. *)
Theorem synthesize_never_removes (h : host) (req : request) (w : world) (path : string) :
  (path ≠ audioFolder h +:+ "/" +:+ "output_" +:+ number_to_string (date_now h) +:+ ".wav" →
   files (synthesize h req w).2 !! path = files w !! path)
  ∧ (is_Some (files w !! path) → is_Some (files (synthesize h req w).2 !! path)).
Proof.
  fold (output_name (date_now h)). rewrite <- output_path_in_folder.
  destruct (truthy (get_prop (req_body req) "text")) eqn:Htruthy;
    [|by rewrite (synthesize_falsy_text h req w Htruthy)].
  rewrite (synthesize_run h req w Htruthy). cbn zeta.
  destruct (data_bytes _) as [bytes|]; [|done].
  destruct (write_fault h (output_path h (date_now h))).
  { cbn [snd files]. split.
    - intros Hne. by apply after_refused_write_other.
    - apply after_refused_write_keeps. }
  cbn [snd files]. split.
  - intros Hne. by rewrite lookup_insert_ne.
  - intros Hsome. destruct (decide (output_path h (date_now h) = path)) as [<-|Hne].
    + by rewrite lookup_insert_eq.
    + by rewrite lookup_insert_ne.
Qed.

(** X10.  [/api/synthesize] calls the synthesis exactly when [text] is
    truthy, and never the recognition, the translation or
    [fs.unlinkSync]. *)
Theorem synthesize_service_calls (h : host) (req : request) (w : world) :
  ∃ evs : list event,
    log (synthesize h req w).2 = log w ++ evs
    ∧ (Exists (λ ev, is_synthesize ev = true) evs ↔
         truthy (get_prop (req_body req) "text") = true)
    ∧ Forall (λ ev, is_recognize ev = false ∧ is_translate ev = false
                    ∧ is_unlink ev = false) evs.
Proof.
  destruct (truthy (get_prop (req_body req) "text")) eqn:Htruthy.
  - rewrite (synthesize_run h req w Htruthy). cbn zeta. unfold synthesized.
    destruct (synthesizeSpeech h (synthesis_request (get_prop (req_body req) "text")))
      as [resp|reason]; cbn [fst snd];
      [destruct (data_bytes (audioContent resp)) as [bytes|];
       [destruct (write_fault h (output_path h (date_now h)))|]|];
      unfold emit; cbn [snd log data_bytes]; rewrite <- ?app_assoc;
      (eexists; split; [reflexivity|]);
      (split; [split; [done|intros _; by left]|by repeat constructor]).
  - rewrite (synthesize_falsy_text h req w Htruthy). exists [].
    cbn [snd]. rewrite app_nil_r. split; [done|].
    split; [|done]. split; [by intros ?%Exists_nil|done].
Qed.

(** ** One folder for both routes *)

(** X11.  For a name without separator that is neither empty nor a dot
    segment, [path.join(__dirname, 'audio_files', name)] of route A and
    [path.join(audioFolder, name)] of route B are the same path: the name
    directly below the audio folder. *)
Theorem both_routes_share_the_folder (h : host) (name : string) :
  leaf name →
  posix_join [dirname h; "audio_files"; name] = audioFolder h +:+ "/" +:+ name
  ∧ posix_join [audioFolder h; name] = audioFolder h +:+ "/" +:+ name.
Proof.
  intros Hname. unfold audioFolder.
  by apply posix_join_below; [apply audio_files_leaf|].
Qed.

Lemma studio_shares_the_folder :
  posix_join [dirname Samples.studio; "audio_files"; "a.webm"]
  = audioFolder Samples.studio +:+ "/" +:+ "a.webm"
  ∧ posix_join [audioFolder Samples.studio; "a.webm"]
    = audioFolder Samples.studio +:+ "/" +:+ "a.webm".
Proof.
  apply (both_routes_share_the_folder Samples.studio "a.webm").
  repeat split; discriminate.
Defined.

(** X12.  A [fileName] of the form [../name] leaves the audio folder: the
    upload is written to, and then removed from, [name] in the directory of
    the script, whatever was there before. *)
Theorem parent_name_escapes_the_folder (h : host) (req : request)
    (audioFile : uploaded_file) (name : string) (w : world) :
  leaf name →
  well_formed_upload req audioFile ("../" +:+ name) →
  write_fault h (posix_join [dirname h; name]) = None →
  unlink_fault h (posix_join [dirname h; name]) = None →
  ∃ (b : value) (w' : world),
    record_audio h req w = (Ok (Response 200 b), w')
    ∧ EWriteFile (posix_join [dirname h; name]) (buffer audioFile) ∈ log w'
    ∧ EUnlink (posix_join [dirname h; name]) ∈ log w'
    ∧ files w' !! posix_join [dirname h; name] = None.
Proof.
  intros Hname Hreq Hwrite Hunlink.
  assert (scratch_path h ("../" +:+ name) = posix_join [dirname h; name]) as Hpath
    by (by apply posix_join_climb; [apply audio_files_leaf|]).
  rewrite <- Hpath in *.
  rewrite (record_audio_completes h req audioFile _ w Hreq Hwrite Hunlink).
  eexists _, _. split; [reflexivity|]. cbn [files log].
  rewrite !elem_of_app, !list_elem_of_singleton. split; [|split].
  - do 3 left. by right.
  - left. by right.
  - apply lookup_delete_eq.
Qed.

Lemma studio_upload_removes_app_js :
  ∃ (b : value) (w' : world),
    record_audio Samples.studio (Samples.upload (VString "../app.js"))
      {| files := {[ "/srv/app/app.js" := Samples.spoken ]}; log := [] |}
    = (Ok (Response 200 b), w')
    ∧ EWriteFile (posix_join [dirname Samples.studio; "app.js"]) (buffer Samples.clip)
        ∈ log w'
    ∧ EUnlink (posix_join [dirname Samples.studio; "app.js"]) ∈ log w'
    ∧ files w' !! posix_join [dirname Samples.studio; "app.js"] = None.
Proof.
  apply (parent_name_escapes_the_folder Samples.studio
           (Samples.upload (VString "../app.js")) Samples.clip "app.js").
  - repeat split; discriminate.
  - repeat split; done.
  - reflexivity.
  - reflexivity.
Defined.

(** X13.  The scratch file of route A and the output of route B live in the
    same folder under client-chosen and clock-chosen names: after a 200 of
    [/api/synthesize], an upload whose [fileName] is the generated name goes
    through and leaves the store without the synthesized file. *)
Theorem upload_named_like_output_removes_it (h1 h2 : host) (req1 req2 : request)
    (audioFile : uploaded_file) (w w1 : world) (r1 : response) :
  dirname h1 = dirname h2 →
  synthesize h1 req1 w = (Ok r1, w1) →
  status r1 = 200 →
  well_formed_upload req2 audioFile
    ("output_" +:+ number_to_string (date_now h1) +:+ ".wav") →
  write_fault h2 (output_path h1 (date_now h1)) = None →
  unlink_fault h2 (output_path h1 (date_now h1)) = None →
  is_Some (files w1 !! output_path h1 (date_now h1))
  ∧ ∃ (b : value) (w2 : world),
      record_audio h2 req2 w1 = (Ok (Response 200 b), w2)
      ∧ files w2 !! output_path h1 (date_now h1) = None.
Proof.
  intros Hdir Hsynth Hstatus Hreq Hwrite Hunlink.
  fold (output_name (date_now h1)) in Hreq.
  assert (scratch_path h2 (output_name (date_now h1)) = output_path h1 (date_now h1))
    as Hpath.
  { rewrite output_path_in_folder. unfold scratch_path, audioFolder. rewrite Hdir.
    by apply posix_join_below; [apply audio_files_leaf|apply output_name_leaf]. }
  split.
  - destruct (synthesize_200_inversion h1 req1 w w1 r1 Hsynth Hstatus)
      as (resp & bytes & _ & _ & _ & Hfile & _).
    by rewrite Hfile.
  - rewrite <- Hpath in *.
    rewrite (record_audio_completes h2 req2 audioFile _ w1 Hreq Hwrite Hunlink).
    eexists _, _. split; [reflexivity|]. apply lookup_delete_eq.
Qed.

Lemma studio_output_removed_by_upload :
  is_Some (files (synthesize Samples.studio (Samples.say (VString "hola")) Samples.blank).2
             !! output_path Samples.studio (date_now Samples.studio))
  ∧ ∃ (b : value) (w2 : world),
      record_audio Samples.studio_later
        (Samples.upload (VString "output_1700000000123.wav"))
        (synthesize Samples.studio (Samples.say (VString "hola")) Samples.blank).2
      = (Ok (Response 200 b), w2)
      ∧ files w2 !! output_path Samples.studio (date_now Samples.studio) = None.
Proof.
  apply (upload_named_like_output_removes_it Samples.studio Samples.studio_later
           (Samples.say (VString "hola"))
           (Samples.upload (VString "output_1700000000123.wav")) Samples.clip
           Samples.blank _
           (Response 200
              (VObject {[ "audioURL" :=
                            VString "http://localhost:3001/audio/output_1700000000123.wav" ]}))).
  - reflexivity.
  - vm_compute. reflexivity.
  - reflexivity.
  - repeat split; done.
  - reflexivity.
  - reflexivity.
Defined.

(** ** The generated name *)

Lemma uint_all_digits (d : Decimal.uint) :
  all_digits (NilEmpty.string_of_uint d) = true.
Proof. induction d; cbn; auto. Qed.

Lemma pos_digits (p : positive) :
  NilZero.string_of_uint (Pos.to_uint p) ≠ ""
  ∧ all_digits (NilZero.string_of_uint (Pos.to_uint p)) = true.
Proof.
  pose proof (DecimalPos.Unsigned.to_uint_nonnil p) as Hnonnil.
  unfold NilZero.string_of_uint.
  destruct (Pos.to_uint p) as [|d|d|d|d|d|d|d|d|d|d] eqn:E; [done|..];
    (split; [discriminate|apply (uint_all_digits (_ d))]).
Qed.

(** X14.  For a reading of the clock that is not negative the generated
    name is [output_], one or more decimal digits, [.wav]; for a negative
    reading a minus sign comes before the digits. *)
Theorem output_name_digits (now : Z) :
  (0 ≤ now →
   number_to_string now ≠ "" ∧ all_digits (number_to_string now) = true)
  ∧ (now < 0 →
     ∃ digits,
       number_to_string now = String "-" digits
       ∧ digits ≠ "" ∧ all_digits digits = true).
Proof.
  unfold number_to_string. split; intros Hnow.
  - destruct now as [|p|p]; [done|apply pos_digits|lia].
  - destruct now as [|p|p]; [lia|lia|]. eexists. split; [reflexivity|].
    apply pos_digits.
Qed.

Lemma studio_clock_digits :
  (number_to_string 1700000000123 ≠ ""
   ∧ all_digits (number_to_string 1700000000123) = true)
  ∧ ∃ digits,
      number_to_string (-5) = String "-" digits
      ∧ digits ≠ "" ∧ all_digits digits = true.
Proof.
  split.
  - apply (proj1 (output_name_digits 1700000000123)). lia.
  - apply (proj2 (output_name_digits (-5))). lia.
Defined.

(** ** The transcription at its edges *)

(** X16.  When the recognition resolves without any result, [speechToText]
    returns the empty string, not [undefined]; when one of the results has
    no alternative, reading its first transcript throws inside the [try],
    the error is logged and [undefined] is returned. *)
Theorem speechToText_edges (h : host) (audioFile : uploaded_file) (w : world)
    (resp : RecognizeResponse) :
  recognize h (speech_request audioFile) = Resolved resp →
  (results resp = [] →
   speechToText h audioFile w
   = (Ok (VString ""),
      {| files := files w; log := log w ++ [ERecognize (speech_request audioFile)] |}))
  ∧ (Exists (λ r, alternatives r = []) (results resp) →
     speechToText h audioFile w
     = (Ok VUndefined,
        {| files := files w;
           log := log w ++ [ERecognize (speech_request audioFile);
                            EConsoleError "Error transcribing audio:"
                              (JsError TranscriptAccess "TypeError")] |})).
Proof.
  intros Hrec. rewrite speechToText_run. unfold transcribed. rewrite Hrec. split.
  - by intros ->.
  - intros Hmissing. by rewrite (best_transcripts_missing _ Hmissing).
Qed.

Lemma hard_of_hearing_is_undefined :
  (results Samples.half_heard = [] →
   speechToText Samples.hard_of_hearing Samples.clip Samples.blank
   = (Ok (VString ""),
      {| files := files Samples.blank;
         log := log Samples.blank ++ [ERecognize (speech_request Samples.clip)] |}))
  ∧ (Exists (λ r, alternatives r = []) (results Samples.half_heard) →
     speechToText Samples.hard_of_hearing Samples.clip Samples.blank
     = (Ok VUndefined,
        {| files := files Samples.blank;
           log := log Samples.blank
                    ++ [ERecognize (speech_request Samples.clip);
                        EConsoleError "Error transcribing audio:"
                          (JsError TranscriptAccess "TypeError")] |})).
Proof.
  apply (speechToText_edges Samples.hard_of_hearing Samples.clip Samples.blank
           Samples.half_heard).
  reflexivity.
Defined.

(** ** The store a run of route A leaves *)

(** X17.  On a well-formed upload the store after the run is decided by the
    system calls.  When the write is refused: untouched if the file could
    not be opened, otherwise with the scratch file created or truncated and
    holding the bytes written before the fault.  When the unlink is refused:
    with the upload left at the scratch path.  When both go through: without
    any file at the scratch path, so a run that succeeds on a free scratch
    path leaves the store exactly as it found it. *)
Theorem record_audio_store_after (h : host) (req : request) (audioFile : uploaded_file)
    (name : string) (w : world) :
  well_formed_upload req audioFile name →
  files (record_audio h req w).2
  = match write_fault h (scratch_path h name), unlink_fault h (scratch_path h name) with
    | Some _, _ =>
        match write_reached h (scratch_path h name) with
        | None => files w
        | Some n => <[scratch_path h name := take n (buffer audioFile)]> (files w)
        end
    | None, Some _ => <[scratch_path h name := buffer audioFile]> (files w)
    | None, None => delete (scratch_path h name) (files w)
    end
  ∧ (write_fault h (scratch_path h name) = None →
     unlink_fault h (scratch_path h name) = None →
     files w !! scratch_path h name = None →
     files (record_audio h req w).2 = files w).
Proof.
  intros Hreq.
  assert (files (record_audio h req w).2
          = match write_fault h (scratch_path h name),
                  unlink_fault h (scratch_path h name) with
            | Some _, _ =>
                match write_reached h (scratch_path h name) with
                | None => files w
                | Some n => <[scratch_path h name := take n (buffer audioFile)]> (files w)
                end
            | None, Some _ => <[scratch_path h name := buffer audioFile]> (files w)
            | None, None => delete (scratch_path h name) (files w)
            end) as Hstore.
  { rewrite (record_audio_well_formed h req audioFile name w Hreq).
    destruct (write_fault h (scratch_path h name)) as [code|];
      [by rewrite record_audio_catch_run|].
    unfold record_audio_resume, try_catch. rewrite record_audio_pipeline_run. cbn zeta.
    destruct (unlink_fault h (scratch_path h name)) as [code|];
      [by rewrite record_audio_catch_run|].
    unfold written; cbn [files]. by rewrite lookup_insert_eq, delete_insert_eq. }
  split; [done|]. intros Hwrite Hunlink Hfree.
  rewrite Hstore, Hwrite, Hunlink. by apply delete_id.
Qed.

Lemma full_disk_upload_store_after :
  files (record_audio Samples.full_disk (Samples.upload (VString "a.webm")) Samples.blank).2
  = match write_fault Samples.full_disk (scratch_path Samples.full_disk "a.webm"),
          unlink_fault Samples.full_disk (scratch_path Samples.full_disk "a.webm") with
    | Some _, _ =>
        match write_reached Samples.full_disk (scratch_path Samples.full_disk "a.webm") with
        | None => files Samples.blank
        | Some n =>
            <[scratch_path Samples.full_disk "a.webm" := take n (buffer Samples.clip)]>
              (files Samples.blank)
        end
    | None, Some _ =>
        <[scratch_path Samples.full_disk "a.webm" := buffer Samples.clip]>
          (files Samples.blank)
    | None, None => delete (scratch_path Samples.full_disk "a.webm") (files Samples.blank)
    end
  ∧ (write_fault Samples.full_disk (scratch_path Samples.full_disk "a.webm") = None →
     unlink_fault Samples.full_disk (scratch_path Samples.full_disk "a.webm") = None →
     files Samples.blank !! scratch_path Samples.full_disk "a.webm" = None →
     files (record_audio Samples.full_disk (Samples.upload (VString "a.webm"))
              Samples.blank).2
     = files Samples.blank).
Proof.
  apply (record_audio_store_after Samples.full_disk (Samples.upload (VString "a.webm"))
           Samples.clip "a.webm" Samples.blank).
  repeat split; done.
Defined.

(** A full disk leaves the first bytes of the upload behind. *)
Example full_disk_leaves_a_partial_file :
  files (record_audio Samples.full_disk (Samples.upload (VString "a.webm")) Samples.blank).2
    !! "/srv/app/audio_files/a.webm"
  = Some (String.list_byte_of_string "OggS").
Proof. vm_compute. reflexivity. Qed.

(** ** The audio sent to the recognition *)

Lemma base64_digit_value (n : N) :
  (n < 64)%N →
  base64_value (base64_digit n) = Some n ∧ Ascii.eqb (base64_digit n) "=" = false.
Proof.
  intros Hn.
  assert (Forall (λ n, base64_value (base64_digit n) = Some n
                       ∧ Ascii.eqb (base64_digit n) "=" = false)
            (map N.of_nat (seq 0 64))) as Hall
    by (vm_compute; repeat constructor).
  rewrite Forall_forall in Hall. apply Hall.
  apply list_elem_of_fmap. exists (N.to_nat n). split; [lia|].
  apply elem_of_seq. lia.
Qed.

Lemma byte_of_to_N (b : Byte.byte) (n : N) : n = Byte.to_N b → Byte.of_N n = Some b.
Proof. intros ->. apply Byte.of_to_N. Qed.

Ltac base64_arith :=
  repeat match goal with
         | b : Byte.byte |- _ =>
             lazymatch goal with
             | H : (Byte.to_N b <= 255)%N |- _ => fail
             | _ => pose proof (Byte.to_N_bounded b)
             end
         end;
  zify; Z.to_euclidean_division_equations; lia.

Lemma base64_decode_three (a b c : Byte.byte) (rest : string) :
  base64_decode
    (String (base64_digit (Byte.to_N a / 4))
       (String (base64_digit ((Byte.to_N a mod 4) * 16 + Byte.to_N b / 16))
          (String (base64_digit ((Byte.to_N b mod 16) * 4 + Byte.to_N c / 64))
             (String (base64_digit (Byte.to_N c mod 64)) rest))))
  = (tail ← base64_decode rest; Some (a :: b :: c :: tail)).
Proof.
  cbn [base64_decode].
  destruct (base64_digit_value (Byte.to_N a / 4)) as [-> _]; [base64_arith|].
  destruct (base64_digit_value ((Byte.to_N a mod 4) * 16 + Byte.to_N b / 16))
    as [-> _]; [base64_arith|].
  destruct (base64_digit_value ((Byte.to_N b mod 16) * 4 + Byte.to_N c / 64))
    as [-> ->]; [base64_arith|].
  destruct (base64_digit_value (Byte.to_N c mod 64)) as [-> ->]; [base64_arith|].
  cbn [mbind option_bind].
  rewrite (byte_of_to_N a (Byte.to_N a / 4 * 4 + _)%N) by base64_arith.
  cbn [mbind option_bind].
  rewrite (byte_of_to_N b (_ mod 16 * 16 + _)%N) by base64_arith.
  cbn [mbind option_bind].
  rewrite (byte_of_to_N c (_ mod 4 * 64 + _)%N) by base64_arith. reflexivity.
Qed.

Lemma base64_decode_two (a b : Byte.byte) :
  base64_decode
    (String (base64_digit (Byte.to_N a / 4))
       (String (base64_digit ((Byte.to_N a mod 4) * 16 + Byte.to_N b / 16))
          (String (base64_digit ((Byte.to_N b mod 16) * 4)) "=")))
  = Some [a; b].
Proof.
  cbn [base64_decode].
  destruct (base64_digit_value (Byte.to_N a / 4)) as [-> _]; [base64_arith|].
  destruct (base64_digit_value ((Byte.to_N a mod 4) * 16 + Byte.to_N b / 16))
    as [-> _]; [base64_arith|].
  destruct (base64_digit_value ((Byte.to_N b mod 16) * 4)) as [-> ->]; [base64_arith|].
  cbn [mbind option_bind].
  rewrite (byte_of_to_N a (Byte.to_N a / 4 * 4 + _)%N) by base64_arith.
  cbn [mbind option_bind].
  rewrite (byte_of_to_N b (_ mod 16 * 16 + _)%N) by base64_arith. reflexivity.
Qed.

Lemma base64_decode_one (a : Byte.byte) :
  base64_decode
    (String (base64_digit (Byte.to_N a / 4))
       (String (base64_digit ((Byte.to_N a mod 4) * 16)) "=="))
  = Some [a].
Proof.
  cbn [base64_decode].
  destruct (base64_digit_value (Byte.to_N a / 4)) as [-> _]; [base64_arith|].
  destruct (base64_digit_value ((Byte.to_N a mod 4) * 16)) as [-> _]; [base64_arith|].
  cbn [mbind option_bind].
  rewrite (byte_of_to_N a (Byte.to_N a / 4 * 4 + _)%N) by base64_arith. reflexivity.
Qed.

(** Induction three bytes at a time, as [base64] recurses. *)
Lemma by_three (P : list Byte.byte → Prop) :
  P [] → (∀ a, P [a]) → (∀ a b, P [a; b]) →
  (∀ a b c rest, P rest → P (a :: b :: c :: rest)) →
  ∀ bytes, P bytes.
Proof.
  intros H0 H1 H2 H3 bytes.
  assert (P bytes ∧ (∀ a, P (a :: bytes)) ∧ (∀ a b, P (a :: b :: bytes))) as [? _];
    [|done].
  induction bytes as [|c bytes (IH0 & IH1 & IH2)]; [done|].
  split; [apply IH1|]. split; [intros a; apply IH2|]. intros a b. by apply H3.
Qed.

Lemma base64_decode_encode (bytes : list Byte.byte) :
  base64_decode (base64 bytes) = Some bytes.
Proof.
  induction bytes as [|a|a b|a b c rest IH] using by_three.
  - reflexivity.
  - apply base64_decode_one.
  - apply base64_decode_two.
  - cbn [base64]. cbn zeta. rewrite base64_decode_three, IH. reflexivity.
Qed.

(** X15.  The encoding of the upload loses nothing: the base64 text has
    four characters for every three bytes, rounded up, it can be read back
    to the buffer, and two uploads are sent to the recognition as the same
    request only if their buffers are the same. *)
Theorem recognition_gets_the_whole_buffer (f1 f2 : uploaded_file) :
  String.length (audio_content (speech_request f1))
  = (4 * ((length (buffer f1) + 2) / 3))%nat
  ∧ base64_decode (audio_content (speech_request f1)) = Some (buffer f1)
  ∧ (speech_request f1 = speech_request f2 → buffer f1 = buffer f2).
Proof.
  unfold speech_request. cbn [audio_content]. split; [|split].
  - induction (buffer f1) as [|a|a b|a b c rest IH] using by_three; try reflexivity.
    cbn [base64]. cbn zeta. cbn [String.length length]. rewrite IH.
    replace (S (S (S (length rest))) + 2)%nat with (1 * 3 + (length rest + 2))%nat by lia.
    rewrite Nat.div_add_l by lia. lia.
  - apply base64_decode_encode.
  - intros [= Heq]. apply (f_equal base64_decode) in Heq.
    rewrite !base64_decode_encode in Heq. congruence.
Qed.
